(** * dynamodb-store-v3: a session store over a key-value table

    Shallow embedding of [src/lib/constants.ts] (constants and the helpers
    [toSecondsEpoch], [isExpired]) and of [src/lib/dynamodb-store-v3.ts]
    (class [DynamoDBStoreV3]).

    Modelling conventions.
    - JavaScript numbers that carry times, intervals and capacities are
      integers of [Z]; [NaN] and the infinities are outside the model.
      [Math.floor (x / 1000)] is [x / 1000] of [Z], which rounds down.
    - An optional JavaScript value is an [option]: [None] is [undefined].
    - A thrown value is a [Throw] result; [try]/[catch] is [try_catch].
    - The database client is a table of items together with a list of
      scripted outcomes, one per request: [Some e] makes the next request
      reject with [e].  Every request that is issued is logged in [sent].
    - The document client is built with [convertEmptyValues],
      [removeUndefinedValues] and [convertClassInstanceToMap]: what is
      written passes through [marshall], what is read through [unmarshall].
      The fields of a payload, beside [cookie] and [updated], are scalar
      values: null, booleans, numbers and strings.
    - Which texts the service reads as a plain attribute name inside an
      expression (its reserved words, its identifier syntax) is the
      service's own; it is the field [plain_name] of the world.
    - A callback is an observer that may throw; every invocation is logged,
      with its argument list, in [calls].
    - Each operation runs to completion before the next one starts; a promise
      that nobody awaits is [detached], its rejection is lost.
    - [debug] only prints and is left out. *)

From Stdlib Require Import ZArith String Lia.
From stdpp Require Import base option list gmap strings.

Local Open Scope Z_scope.

(** ** JavaScript values *)

Record Date := new_Date { getTime : Z }.

Inductive JSValue :=
| VUndefined
| VNull
| VBoolean (b : bool)
| VNumber (n : Z)
| VString (s : string)
| VDate (d : Date).

(** Truthiness, the test behind [x ? a : b], [!x] and [a || b]. *)
Class Truthy (A : Type) := truthy : A → bool.

#[global] Instance truthy_Z : Truthy Z := λ n, negb (n =? 0).
#[global] Instance truthy_string : Truthy string :=
  λ s, match s with EmptyString => false | String _ _ => true end.
#[global] Instance truthy_bool : Truthy bool := λ b, b.
#[global] Instance truthy_option `{Truthy A} : Truthy (option A) :=
  λ o, match o with Some a => truthy a | None => false end.
#[global] Instance truthy_JSValue : Truthy JSValue :=
  λ v, match v with
       | VUndefined | VNull => false
       | VBoolean b => truthy b
       | VNumber n => truthy n
       | VString s => truthy s
       | VDate _ => true
       end.

(** Thrown values: the [Error] built by [toSecondsEpoch] from the offending
    value, and whatever the database client rejects with. *)
Inductive Error :=
| NotADate (date : JSValue)
| ClientError (name : string)
| TypeError (property : string).   (* a write to [property] was refused *)

Inductive Result (A : Type) :=
| Ok (a : A)
| Throw (e : Error).
Arguments Ok {A} a.
Arguments Throw {A} e.

(** ** constants.ts *)

Definition DEFAULT_TABLE_NAME : string := "sessions".
Definition DEFAULT_HASH_KEY : string := "id".
Definition DEFAULT_HASH_PREFIX : string := "sess_".
Definition DEFAULT_DATA_ATTRIBUTE : string := "sess".
Definition DEFAULT_RCU : Z := 5.
Definition DEFAULT_WCU : Z := 5.
Definition DEFAULT_TTL : Z := 86400000.
Definition DEFAULT_TOUCH_INTERVAL : Z := 30000.
Definition DEFAULT_KEEP_EXPIRED_POLICY : bool := false.

(** [toSecondsEpoch]: throws unless [date instanceof Date]. *)
Definition toSecondsEpoch (date : JSValue) : Result Z :=
  match date with
  | VDate d => Ok (getTime d / 1000)
  | _ => Throw (NotADate date)
  end.

(** ** Options and the constructor *)

(** What a caller hands to the constructor: [table] and [dynamoConfig] are
    there, every field below them may be missing. *)
Record RawTable := {
  raw_name : option string;
  raw_hashPrefix : option string;
  raw_hashKey : option string;
  raw_dataAttribute : option string;
  raw_readCapacityUnits : option Z;
  raw_writeCapacityUnits : option Z;
}.

Record DynamoConfig := {
  accessKeyId : option string;
  secretAccessKey : option string;
  region : option string;
  endpoint : option string;
}.

Record RawOptions := {
  raw_table : RawTable;
  raw_dynamoConfig : DynamoConfig;
  raw_touchInterval : option Z;
  raw_ttl : option Z;
  raw_keepExpired : option bool;
}.

(** [this.options].  The object literal of the constructor assigns every
    field; [ttl] stays optional because [getExpiration] tests it against
    [undefined]. *)
Record TableOptions := {
  name : string;
  hashPrefix : string;
  hashKey : string;
  dataAttribute : string;
  readCapacityUnits : Z;
  writeCapacityUnits : Z;
}.

Record DynamoDBStoreV3Options := {
  table : TableOptions;
  dynamoConfig : DynamoConfig;
  touchInterval : Z;
  ttl : option Z;
  keepExpired : bool;
}.

(** [x ? x : d] *)
Definition or_default `{Truthy A} (x : option A) (d : A) : A :=
  match x with
  | Some v => if truthy v then v else d
  | None => d
  end.

(** Lines 43-75: the options literal built by the constructor. *)
Definition constructor (options : RawOptions) : DynamoDBStoreV3Options :=
  {| table :=
       {| name := or_default (raw_name (raw_table options)) DEFAULT_TABLE_NAME;
          hashPrefix :=
            or_default (raw_hashPrefix (raw_table options)) DEFAULT_HASH_PREFIX;
          hashKey := or_default (raw_hashKey (raw_table options)) DEFAULT_HASH_KEY;
          dataAttribute :=
            or_default (raw_dataAttribute (raw_table options))
                       DEFAULT_DATA_ATTRIBUTE;
          readCapacityUnits :=
            or_default (raw_readCapacityUnits (raw_table options)) DEFAULT_RCU;
          writeCapacityUnits :=
            or_default (raw_writeCapacityUnits (raw_table options)) DEFAULT_WCU |};
     dynamoConfig :=
       {| accessKeyId := accessKeyId (raw_dynamoConfig options);
          secretAccessKey := secretAccessKey (raw_dynamoConfig options);
          region := region (raw_dynamoConfig options);
          endpoint := endpoint (raw_dynamoConfig options) |};
     touchInterval := or_default (raw_touchInterval options) DEFAULT_TOUCH_INTERVAL;
     ttl := Some (or_default (raw_ttl options) DEFAULT_TTL);
     keepExpired := or_default (raw_keepExpired options) DEFAULT_KEEP_EXPIRED_POLICY |}.

(** The optional options of the README table, to speak about them one by one. *)
Inductive OptionName :=
| table_name | table_hashPrefix | table_hashKey | table_dataAttribute
| table_readCapacityUnits | table_writeCapacityUnits
| opt_touchInterval | opt_ttl | opt_keepExpired.

Definition js_string (o : option string) : JSValue :=
  match o with Some s => VString s | None => VUndefined end.
Definition js_number (o : option Z) : JSValue :=
  match o with Some n => VNumber n | None => VUndefined end.
Definition js_boolean (o : option bool) : JSValue :=
  match o with Some b => VBoolean b | None => VUndefined end.

(** The value the caller supplied for an option, [VUndefined] when omitted. *)
Definition supplied (options : RawOptions) (f : OptionName) : JSValue :=
  match f with
  | table_name => js_string (raw_name (raw_table options))
  | table_hashPrefix => js_string (raw_hashPrefix (raw_table options))
  | table_hashKey => js_string (raw_hashKey (raw_table options))
  | table_dataAttribute => js_string (raw_dataAttribute (raw_table options))
  | table_readCapacityUnits => js_number (raw_readCapacityUnits (raw_table options))
  | table_writeCapacityUnits => js_number (raw_writeCapacityUnits (raw_table options))
  | opt_touchInterval => js_number (raw_touchInterval options)
  | opt_ttl => js_number (raw_ttl options)
  | opt_keepExpired => js_boolean (raw_keepExpired options)
  end.

(** The value the store holds for an option. *)
Definition configured (o : DynamoDBStoreV3Options) (f : OptionName) : JSValue :=
  match f with
  | table_name => VString (name (table o))
  | table_hashPrefix => VString (hashPrefix (table o))
  | table_hashKey => VString (hashKey (table o))
  | table_dataAttribute => VString (dataAttribute (table o))
  | table_readCapacityUnits => VNumber (readCapacityUnits (table o))
  | table_writeCapacityUnits => VNumber (writeCapacityUnits (table o))
  | opt_touchInterval => VNumber (touchInterval o)
  | opt_ttl => js_number (ttl o)
  | opt_keepExpired => VBoolean (keepExpired o)
  end.

Definition default_of (f : OptionName) : JSValue :=
  match f with
  | table_name => VString DEFAULT_TABLE_NAME
  | table_hashPrefix => VString DEFAULT_HASH_PREFIX
  | table_hashKey => VString DEFAULT_HASH_KEY
  | table_dataAttribute => VString DEFAULT_DATA_ATTRIBUTE
  | table_readCapacityUnits => VNumber DEFAULT_RCU
  | table_writeCapacityUnits => VNumber DEFAULT_WCU
  | opt_touchInterval => VNumber DEFAULT_TOUCH_INTERVAL
  | opt_ttl => VNumber DEFAULT_TTL
  | opt_keepExpired => VBoolean DEFAULT_KEEP_EXPIRED_POLICY
  end.

(** ** Session payloads, items and requests *)

(** [cookie.maxAge] is [None] when it is not a number. *)
Record Cookie := { maxAge : option Z }.

(** A value of a field of the payload. *)
Inductive FieldValue :=
| FNull
| FBoolean (b : bool)
| FNumber (n : Z)
| FString (s : string).

(** What [Object.preventExtensions], [Object.seal] and [Object.freeze] leave
    of an object: a frozen object refuses every write, one that is not
    extensible refuses a write to a property it does not have. *)
Inductive Integrity :=
| extensible
| non_extensible
| frozen.

(** The payload is opaque but for [cookie] and [updated]; [fields] holds the
    rest of it.  [updated = None] is a payload without that property. *)
Record SessionData := {
  cookie : option Cookie;
  updated : option Z;
  fields : gmap string FieldValue;
  integrity : Integrity;
}.

Definition with_updated (n : Z) (sess : SessionData) : SessionData :=
  {| cookie := cookie sess; updated := Some n; fields := fields sess;
     integrity := integrity sess |}.

(** Whether [sess.updated = ...] goes through. *)
Definition accepts_updated (sess : SessionData) : bool :=
  match integrity sess with
  | extensible => true
  | non_extensible => match updated sess with Some _ => true | None => false end
  | frozen => false
  end.

(** [sess.updated = n], in strict mode: a refused write throws. *)
Definition assign_updated (n : Z) (sess : SessionData) : Result SessionData :=
  if accepts_updated sess then Ok (with_updated n sess)
  else Throw (TypeError "updated").

(** Lines 77-84: the options the document client is built with. *)
Record MarshallOptions := {
  convertEmptyValues : bool;
  removeUndefinedValues : bool;
  convertClassInstanceToMap : bool;
}.

Record UnmarshallOptions := { wrapNumbers : bool }.

Definition marshallOptions : MarshallOptions :=
  {| convertEmptyValues := true; removeUndefinedValues := true;
     convertClassInstanceToMap := true |}.

Definition unmarshallOptions : UnmarshallOptions := {| wrapNumbers := false |}.

(** Attribute values of the service, as far as fields go. *)
Inductive AttributeValue :=
| AV_NULL
| AV_BOOL (b : bool)
| AV_N (n : Z)
| AV_S (s : string).

(** A field on its way to the service: with [convertEmptyValues] an empty
    string becomes [NULL].  The two other options act on [undefined] and on
    class instances, which field values do not include. *)
Definition marshall_value (o : MarshallOptions) (v : FieldValue)
  : AttributeValue :=
  match v with
  | FNull => AV_NULL
  | FBoolean b => AV_BOOL b
  | FNumber n => AV_N n
  | FString s => if convertEmptyValues o && negb (truthy s)
                 then AV_NULL else AV_S s
  end.

(** A field on its way back; with [wrapNumbers] off a number is a number. *)
Definition unmarshall_value (o : UnmarshallOptions) (a : AttributeValue)
  : FieldValue :=
  match a with
  | AV_NULL => FNull
  | AV_BOOL b => FBoolean b
  | AV_N n => FNumber n
  | AV_S s => FString s
  end.

(** A payload as a later read returns it: a fresh object, each field having
    gone to the service and back. *)
Definition as_stored (sess : SessionData) : SessionData :=
  {| cookie := cookie sess;
     updated := updated sess;
     fields := (λ v, unmarshall_value unmarshallOptions
                       (marshall_value marshallOptions v)) <$> fields sess;
     integrity := extensible |}.

(** An item of the table: the payload attribute and [expires]. *)
Record Item := {
  item_sess : option SessionData;
  item_expires : option Z;
}.

(** The two update expressions of the store.  [set] names the payload
    attribute through the placeholder [#field0]; [touch] splices the name,
    as it is, into the text of the expression. *)
Inductive Update :=
| SetSession (field0 : string) (value0 : SessionData) (e : Z)
| SetTouch (attribute : string) (e : Z) (n : Z).


(** The placeholders sent as [ExpressionAttributeNames]. *)
Definition ExpressionAttributeNames (u : Update) : list (string * string) :=
  match u with
  | SetSession field0 _ _ => [("#field0", field0)]
  | SetTouch _ _ _ => [("#up", "updated")]
  end.

Inductive Command :=
| DescribeTableCommand (TableName : string)
| CreateTableCommand (TableName : string) (AttributeName : string) (rcu wcu : Z)
| GetCommand (TableName : string) (keyName : string) (key : string)
| UpdateCommand (TableName : string) (keyName : string) (key : string)
                (expression : Update)
| DeleteCommand (TableName : string) (keyName : string) (key : string).

(** Arguments a callback is invoked with. *)
Inductive Arg :=
| ANull
| AUndefined
| AError (e : Error)
| ASession (s : SessionData).

(** A callback sees its arguments and returns or throws. *)
Definition Callback := list Arg → Result unit.

(** [DEFAULT_CALLBACK]: rethrows the error it is given. *)
Definition DEFAULT_CALLBACK : Callback :=
  λ args, match args with
          | AError err :: _ => Throw err
          | _ => Ok tt
          end.

(** A callback that never throws. *)
Definition quiet : Callback := λ _, Ok tt.

(** ** The world an operation runs in *)

Record World := {
  clock : Z;                          (* Date.now(), in milliseconds *)
  items : gmap string Item;           (* the table, by hash-key value *)
  faults : list (option Error);       (* outcomes of the coming requests *)
  sent : list Command;                (* requests issued so far *)
  calls : list (list Arg);            (* callback invocations so far *)
  plain_name : string → bool;         (* names the service reads unescaped *)
}.

Definition with_items (m : gmap string Item) (w : World) : World :=
  {| clock := clock w; items := m; faults := faults w; sent := sent w;
     calls := calls w; plain_name := plain_name w |}.
Definition with_faults (fs : list (option Error)) (w : World) : World :=
  {| clock := clock w; items := items w; faults := fs; sent := sent w;
     calls := calls w; plain_name := plain_name w |}.
Definition with_sent (cs : list Command) (w : World) : World :=
  {| clock := clock w; items := items w; faults := faults w; sent := cs;
     calls := calls w; plain_name := plain_name w |}.
Definition with_calls (cs : list (list Arg)) (w : World) : World :=
  {| clock := clock w; items := items w; faults := faults w; sent := sent w;
     calls := cs; plain_name := plain_name w |}.
Definition with_clock (t : Z) (w : World) : World :=
  {| clock := t; items := items w; faults := faults w; sent := sent w;
     calls := calls w; plain_name := plain_name w |}.

(** Time passes. *)
Definition advance (ms : Z) (w : World) : World := with_clock (clock w + ms) w.

(** Computations that read and change the world and may throw. *)
Definition M (A : Type) : Type := World → Result A * World.

Definition ret {A} (a : A) : M A := λ w, (Ok a, w).
Definition throw {A} (e : Error) : M A := λ w, (Throw e, w).
Definition bind {A B} (m : M A) (k : A → M B) : M B :=
  λ w, match m w with
       | (Ok a, w') => k a w'
       | (Throw e, w') => (Throw e, w')
       end.
Definition lift {A} (r : Result A) : M A := λ w, (r, w).

Declare Scope store_scope.
Delimit Scope store_scope with store.
Notation "x <- m ;; k" := (bind m (λ x, k))
  (at level 100, m at next level, right associativity) : store_scope.
Notation "m ;;; k" := (bind m (λ _, k))
  (at level 100, right associativity) : store_scope.
Local Open Scope store_scope.

(** [try { body } catch (e) { handler e }] *)
Definition try_catch {A} (body : M A) (handler : Error → M A) : M A :=
  λ w, match body w with
       | (Ok a, w') => (Ok a, w')
       | (Throw e, w') => handler e w'
       end.

(** A promise nobody awaits: it runs, its outcome is dropped. *)
Definition detached {A} (m : M A) : M unit :=
  λ w, (Ok tt, snd (m w)).

(** [Date.now()] *)
Definition Date_now : M Z := λ w, (Ok (clock w), w).

(** [callback(args)] *)
Definition invoke (callback : Callback) (args : list Arg) : M unit :=
  λ w, (callback args, with_calls (calls w ++ [args]) w).

(** [if (typeof callback === 'function') callback(args)] *)
Definition invoke_if_function (callback : option Callback) (args : list Arg)
  : M unit :=
  match callback with
  | Some f => invoke f args
  | None => ret tt
  end.

(** [promise.finally(callback)]: once the promise settles the callback runs
    with no argument; the outcome of the promise is kept unless the callback
    throws. *)
Definition finally_ {A} (promise : M A) (callback : option Callback) : M A :=
  λ w, match promise w with
       | (r, w') =>
           match callback with
           | Some f =>
               match invoke f [] w' with
               | (Ok _, w'') => (r, w'')
               | (Throw e, w'') => (Throw e, w'')
               end
           | None => (r, w')
           end
       end.

(** Whether the service reads [<attribute>.#up], spliced into the text next
    to [expires = :e], as the path to [updated] below the payload attribute:
    the name has to be one the service reads unescaped, and the path must
    neither overlap [expires] nor start at the key attribute. *)
Definition path_below_payload (plain : string → bool)
    (keyName attribute : string) : bool :=
  plain attribute && negb (String.eqb attribute "expires")
  && negb (String.eqb attribute keyName).

(** What the service does with a request that reaches it.  The payload of a
    save is stored as the document client marshalls it.  A touch update
    addresses a path below the payload attribute, which the service rejects
    when it does not read the spliced text as that path or when the item has
    no such attribute. *)
Definition perform (plain : string → bool) (c : Command) (m : gmap string Item)
  : Result (option Item) * gmap string Item :=
  match c with
  | DescribeTableCommand _ => (Ok None, m)
  | CreateTableCommand _ _ _ _ => (Ok None, m)
  | GetCommand _ _ key => (Ok (m !! key), m)
  | UpdateCommand _ _ key (SetSession _ value0 e) =>
      let it := {| item_sess := Some (as_stored value0);
                   item_expires := Some e |} in
      (Ok (Some it), <[key := it]> m)
  | UpdateCommand _ keyName key (SetTouch attribute e n) =>
      if path_below_payload plain keyName attribute
      then
        match m !! key with
        | Some {| item_sess := Some s |} =>
            let it := {| item_sess := Some (with_updated n s);
                         item_expires := Some e |} in
            (Ok (Some it), <[key := it]> m)
        | _ => (Throw (ClientError "ValidationException"), m)
        end
      else (Throw (ClientError "ValidationException"), m)
  | DeleteCommand _ _ key => (Ok None, delete key m)
  end.

(** [this.dynamoDBClient.send(command)], awaited: the [Item] of the output,
    or the rejection thrown. *)
Definition send (c : Command) : M (option Item) :=
  λ w, let w1 := with_sent (sent w ++ [c]) w in
       match faults w with
       | Some e :: fs => (Throw e, with_faults fs w1)
       | None :: fs =>
           let '(r, m) := perform (plain_name w) c (items w) in
           (r, with_items m (with_faults fs w1))
       | [] =>
           let '(r, m) := perform (plain_name w) c (items w) in
           (r, with_items m w1)
       end.

(** [isExpired]: [!expires || expires <= toSecondsEpoch(new Date())];
    [None] is an [expires] attribute that is missing. *)
Definition isExpired (expires : option Z) : M bool :=
  if negb (truthy expires) then ret true
  else
    now <- Date_now ;;
    secs <- lift (toSecondsEpoch (VDate (new_Date now))) ;;
    ret (match expires with Some e => e <=? secs | None => false end).

(** ** dynamodb-store-v3.ts *)

Section Store.
Variable options : DynamoDBStoreV3Options.

(** [getSessionID] *)
Definition getSessionID (sid : string) : string :=
  hashPrefix (table options) +:+ sid.

(** [getExpiration] *)
Definition getExpiration (sess : SessionData) : M Date :=
  expirationDate <- Date_now ;;
  match ttl options with
  | Some t => ret (new_Date (expirationDate + t))
  | None =>
      match cookie sess with
      | Some {| maxAge := Some age |} => ret (new_Date (expirationDate + age))
      | _ => ret (new_Date (expirationDate + DEFAULT_TTL))
      end
  end.

(** [tableExists] *)
Definition tableExists : M bool :=
  try_catch (send (DescribeTableCommand (name (table options))) ;;; ret true)
            (λ _, ret false).

(** [createTable] *)
Definition createTable (callback : Callback) : M unit :=
  try_catch
    (exists_ <- tableExists ;;
     (if negb exists_
      then detached (send (CreateTableCommand
                             (name (table options)) (hashKey (table options))
                             (readCapacityUnits (table options))
                             (writeCapacityUnits (table options))))
      else ret tt) ;;;
     invoke callback [])
    (λ e, invoke callback [AError e]).

(** [destroy] *)
Definition destroy (sid : string) (callback : option Callback) : M unit :=
  try_catch
    (let sessionID := getSessionID sid in
     send (DeleteCommand (name (table options)) (hashKey (table options))
                         sessionID) ;;;
     invoke_if_function callback [ANull])
    (λ e, invoke_if_function callback [AError e]).

(** [handleExpiredSession]; [this.destroy] is not awaited. *)
Definition handleExpiredSession (sid : string) (callback : option Callback)
  : M unit :=
  if keepExpired options
  then invoke_if_function callback []
  else detached (destroy sid callback).

(** [get]; [this.handleExpiredSession] is not awaited. *)
Definition get (sid : string) (callback : Callback) : M unit :=
  try_catch
    (let sessionID := getSessionID sid in
     record <- send (GetCommand (name (table options))
                                (hashKey (table options)) sessionID) ;;
     match record with
     | None => invoke callback [ANull; ANull]
     | Some r =>
         expired <- isExpired (item_expires r) ;;
         if expired
         then detached (handleExpiredSession sid (Some callback))
         else invoke callback
                [ANull;
                 match item_sess r with
                 | Some s => ASession s
                 | None => AUndefined
                 end]
     end)
    (λ e, invoke callback [AError e]).

(** [touch]; [SetTouch] carries [dataAttribute] as the text that is spliced
    into the expression. *)
Definition touch (sid : string) (sess : SessionData)
           (callback : option Callback) : M unit :=
  try_catch
    (due <- (if negb (truthy (updated sess)) then ret true
             else now <- Date_now ;;
                  ret (match updated sess with
                       | Some u => u + touchInterval options <=? now
                       | None => false
                       end)) ;;
     if due : bool
     then
       let sessionID := getSessionID sid in
       expires <- getExpiration sess ;;
       e <- lift (toSecondsEpoch (VDate expires)) ;;
       n <- Date_now ;;
       detached
         (finally_
            (send (UpdateCommand (name (table options))
                                 (hashKey (table options)) sessionID
                                 (SetTouch (dataAttribute (table options)) e n)))
            callback)
     else invoke_if_function callback [])
    (λ _, invoke_if_function callback []).

(** [set], over the time-conversion helper it calls, so that the guard
    around the two call sites can be stated for whatever the helper does.
    [sess.updated = ...] writes to the caller's object and throws, inside
    the guarded block, when the object refuses the write. *)
Section SetGuard.
Variable toSeconds : JSValue → Result Z.

Definition set_with (sid : string) (sess : SessionData)
           (callback : option Callback) : M unit :=
  try_catch
    (let sessionID := getSessionID sid in
     d <- getExpiration sess ;;
     expires <- lift (toSeconds (VDate d)) ;;
     now <- Date_now ;;
     stamp <- lift (toSeconds (VDate (new_Date now))) ;;
     sess <- lift (assign_updated stamp sess) ;;
     detached
       (finally_
          (send (UpdateCommand (name (table options))
                               (hashKey (table options)) sessionID
                               (SetSession (dataAttribute (table options))
                                           sess expires)))
          callback))
    (λ e, invoke_if_function callback [AError e]).
End SetGuard.

(** [set] *)
Definition set (sid : string) (sess : SessionData)
           (callback : option Callback) : M unit :=
  set_with toSecondsEpoch sid sess callback.
End Store.

(** [new DynamoDBStoreV3(options, callback)]: resolve the options, start
    [createTable], return the store's options. *)
Definition new_DynamoDBStoreV3 (options : RawOptions) (callback : Callback)
  : M DynamoDBStoreV3Options :=
  let this_options := constructor options in
  detached (createTable this_options callback) ;;;
  ret this_options.

(** ** Statements and sample inputs used below *)

(** The first [n] coming requests are answered by the service. *)
Fixpoint no_fault (n : nat) (fs : list (option Error)) : bool :=
  match n, fs with
  | O, _ => true
  | S _, [] => true
  | S n, None :: fs => no_fault n fs
  | S _, Some _ :: _ => false
  end.

(** The world once a request [c] has been issued and answered or rejected,
    the table left as it was. *)
Definition issued (c : Command) (w : World) : World :=
  with_faults (tail (faults w)) (with_sent (sent w ++ [c]) w).

(** Going from [w] to [w'] the callback was invoked once more, with [e] as
    its first argument. *)
Definition passes_error (e : Error) (w w' : World) : Prop :=
  ∃ rest, calls w' = calls w ++ [AError e :: rest].

(** Options with every optional field omitted. *)
Definition no_options : RawOptions :=
  {| raw_table := {| raw_name := None; raw_hashPrefix := None;
                     raw_hashKey := None; raw_dataAttribute := None;
                     raw_readCapacityUnits := None;
                     raw_writeCapacityUnits := None |};
     raw_dynamoConfig := {| accessKeyId := None; secretAccessKey := None;
                            region := None; endpoint := None |};
     raw_touchInterval := None; raw_ttl := None; raw_keepExpired := None |}.

Definition with_raw_ttl (t : Z) (o : RawOptions) : RawOptions :=
  {| raw_table := raw_table o; raw_dynamoConfig := raw_dynamoConfig o;
     raw_touchInterval := raw_touchInterval o; raw_ttl := Some t;
     raw_keepExpired := raw_keepExpired o |}.

Definition with_raw_keepExpired (b : bool) (o : RawOptions) : RawOptions :=
  {| raw_table := raw_table o; raw_dynamoConfig := raw_dynamoConfig o;
     raw_touchInterval := raw_touchInterval o; raw_ttl := raw_ttl o;
     raw_keepExpired := Some b |}.

(** Falsy values for three options. *)
Definition falsy_options : RawOptions :=
  {| raw_table := {| raw_name := Some ""; raw_hashPrefix := Some "";
                     raw_hashKey := None; raw_dataAttribute := None;
                     raw_readCapacityUnits := None;
                     raw_writeCapacityUnits := None |};
     raw_dynamoConfig := {| accessKeyId := None; secretAccessKey := None;
                            region := None; endpoint := None |};
     raw_touchInterval := Some 0; raw_ttl := None; raw_keepExpired := None |}.

Definition default_store : DynamoDBStoreV3Options := constructor no_options.

(** A store whose sessions live half a second. *)
Definition short_store : DynamoDBStoreV3Options :=
  constructor (with_raw_ttl 500 no_options).

Definition keeping_store : DynamoDBStoreV3Options :=
  constructor (with_raw_keepExpired true no_options).

(** A store without a fixed ttl, as [getExpiration] provides for. *)
Definition no_ttl_store : DynamoDBStoreV3Options :=
  {| table := table default_store; dynamoConfig := dynamoConfig default_store;
     touchInterval := touchInterval default_store; ttl := None;
     keepExpired := false |}.

Definition empty_session : SessionData :=
  {| cookie := None; updated := None; fields := ∅; integrity := extensible |}.

Definition cookie_session : SessionData :=
  {| cookie := Some {| maxAge := Some 60000 |}; updated := None;
     fields := {[ "user" := FString "ann" ]}; integrity := extensible |}.


Definition frozen_session : SessionData :=
  {| cookie := None; updated := None;
     fields := {[ "user" := FString "ann" ]}; integrity := frozen |}.

(** A stand-in for the service's reading of names in the sample worlds:
    letters and digits after a first letter, a few of the reserved words
    excluded. *)
Definition is_letter (c : Ascii.ascii) : bool :=
  let n := Ascii.N_of_ascii c in
  ((65 <=? n) && (n <=? 90) || (97 <=? n) && (n <=? 122))%N.

Definition is_digit (c : Ascii.ascii) : bool :=
  let n := Ascii.N_of_ascii c in ((48 <=? n) && (n <=? 57))%N.

Fixpoint letters_and_digits (s : string) : bool :=
  match s with
  | EmptyString => true
  | String c s => (is_letter c || is_digit c) && letters_and_digits s
  end.

Definition sample_plain_name (s : string) : bool :=
  match s with
  | EmptyString => false
  | String c rest =>
      is_letter c && letters_and_digits rest
      && negb (bool_decide (s ∈ ["session"; "data"; "name"; "user"; "value";
                                  "SESSION"; "DATA"; "NAME"; "USER"; "VALUE"]))
  end.

(** An empty table at a time of 2023, nothing scripted to fail. *)
Definition fresh_world : World :=
  {| clock := 1700000000000; items := ∅; faults := []; sent := [];
     calls := []; plain_name := sample_plain_name |}.


Definition service_down : Error := ClientError "ServiceUnavailable".

(** The same world with the next request rejected. *)
Definition failing_world : World :=
  with_faults [Some service_down] fresh_world.

(** A table that holds one session, expired long ago. *)
Definition stale_item : Item :=
  {| item_sess := Some empty_session; item_expires := Some 1600000000 |}.

Definition stale_world : World :=
  with_items {[ "sess_abc" := stale_item ]} fresh_world.

(** The request a touch issues at time [now] for a store with ttl [t]. *)
Definition touch_request (options : DynamoDBStoreV3Options) (sid : string)
    (t now : Z) : Command :=
  UpdateCommand (name (table options)) (hashKey (table options))
                (getSessionID options sid)
                (SetTouch (dataAttribute (table options)) ((now + t) / 1000) now).

Definition get_request (options : DynamoDBStoreV3Options) (sid : string)
  : Command :=
  GetCommand (name (table options)) (hashKey (table options))
             (getSessionID options sid).

Definition delete_request (options : DynamoDBStoreV3Options) (sid : string)
  : Command :=
  DeleteCommand (name (table options)) (hashKey (table options))
                (getSessionID options sid).

(** The calls a callback receives when it is handed [args] inside a guarded
    block whose handler passes the error on: once, or once more with the
    error it threw. *)
Definition guarded_calls (callback : Callback) (args : list Arg)
  : list (list Arg) :=
  args :: match callback args with
          | Ok _ => []
          | Throw e => [[AError e]]
          end.


(** C1 as it is stated, for a save: a touch with the payload as saved,
    before [touchInterval] has elapsed, issues no request. *)
Definition touch_after_save_is_throttled
    (options : DynamoDBStoreV3Options) (sid : string) (sess : SessionData)
    (elapsed : Z) (w : World) : Prop :=
  let w1 := snd (set options sid sess (Some quiet) w) in
  let saved := with_updated (clock w / 1000) sess in
  sent (snd (touch options sid saved (Some quiet) (advance elapsed w1))) =
  sent w1.

(** The requests of [tableExists], [createTable] and [set]. *)
Definition describe_request (options : DynamoDBStoreV3Options) : Command :=
  DescribeTableCommand (name (table options)).

Definition create_request (options : DynamoDBStoreV3Options) : Command :=
  CreateTableCommand (name (table options)) (hashKey (table options))
                     (readCapacityUnits (table options))
                     (writeCapacityUnits (table options)).

Definition set_request (options : DynamoDBStoreV3Options) (sid : string)
    (sess : SessionData) (stamp expires : Z) : Command :=
  UpdateCommand (name (table options)) (hashKey (table options))
                (getSessionID options sid)
                (SetSession (dataAttribute (table options))
                            (with_updated stamp sess) expires).

(** The hash-key value a request addresses, if it addresses an item. *)
Definition command_key (c : Command) : option string :=
  match c with
  | GetCommand _ _ key | UpdateCommand _ _ key _ | DeleteCommand _ _ key =>
      Some key
  | DescribeTableCommand _ | CreateTableCommand _ _ _ _ => None
  end.

(** The calls an optional callback receives from [finally]. *)
Definition finally_calls (callback : option Callback) : list (list Arg) :=
  match callback with
  | Some _ => [[]]
  | None => []
  end.

(** The second argument [get] passes for a record that is not expired. *)
Definition session_arg (r : Item) : Arg :=
  match item_sess r with
  | Some s => ASession s
  | None => AUndefined
  end.

(** A record that is good until 2027, and a table that holds it. *)
Definition live_item : Item :=
  {| item_sess := Some cookie_session; item_expires := Some 1800000000 |}.

Definition live_world : World :=
  with_items {[ "sess_abc" := live_item ]} fresh_world.

(** A world in which the table cannot be described. *)
Definition no_table_world : World :=
  with_faults [Some (ClientError "ResourceNotFoundException")] fresh_world.

(** Unfolds an operation down to the requests it sends. *)
Ltac run :=
  cbv [set set_with get touch destroy handleExpiredSession getExpiration
       try_catch detached finally_ invoke invoke_if_function bind ret lift
       throw Date_now getSessionID].

(** ** The helpers *)

(** [isExpired] on a number: a comparison against the clock in seconds; it
    never throws and changes nothing. *)
Lemma isExpired_eval (expires : Z) (w : World) :
  isExpired (Some expires) w =
  (Ok (bool_decide (expires = 0 ∨ expires ≤ clock w / 1000)), w).
Proof.
  cbv [isExpired truthy truthy_option truthy_Z bind Date_now lift ret
       toSecondsEpoch getTime].
  destruct (Z.eqb_spec expires 0) as [->|Hne]; cbn [negb].
  - rewrite bool_decide_eq_true_2; [reflexivity | by left].
  - do 2 f_equal.
    destruct (Z.leb_spec expires (clock w / 1000)).
    + rewrite bool_decide_eq_true_2; [reflexivity | by right].
    + rewrite bool_decide_eq_false_2; [reflexivity | lia].
Qed.

(** C7: [isExpired expires] is true when [expires] is 0, true when it is at
    most the current time in seconds since the epoch, and false otherwise. *)
Theorem isExpired_spec (w : World) :
  isExpired (Some 0) w = (Ok true, w) ∧
  (∀ expires, expires ≤ clock w / 1000 →
              isExpired (Some expires) w = (Ok true, w)) ∧
  (∀ expires, expires ≠ 0 → clock w / 1000 < expires →
              isExpired (Some expires) w = (Ok false, w)).
Proof.
  split; [reflexivity|]. split.
  - intros expires Hle. rewrite isExpired_eval.
    rewrite bool_decide_eq_true_2; [reflexivity | by right].
  - intros expires Hne Hlt. rewrite isExpired_eval.
    rewrite bool_decide_eq_false_2; [reflexivity | lia].
Qed.

Lemma isExpired_spec_witness :
  isExpired (Some 1700000000) fresh_world = (Ok true, fresh_world) ∧
  isExpired (Some 1600000000) fresh_world = (Ok true, fresh_world) ∧
  isExpired (Some 1700000001) fresh_world = (Ok false, fresh_world).
Proof.
  destruct (isExpired_spec fresh_world) as (_ & Hpast & Hfuture).
  split; [|split].
  - apply Hpast. by vm_compute.
  - apply Hpast. by vm_compute.
  - apply Hfuture; by vm_compute.
Defined.

Lemma isExpired_missing (w : World) : isExpired None w = (Ok true, w).
Proof. reflexivity. Qed.

Lemma toSecondsEpoch_Date (d : Date) :
  toSecondsEpoch (VDate d) = Ok (getTime d / 1000).
Proof. reflexivity. Qed.

Lemma toSecondsEpoch_other (v : JSValue) :
  (∀ d, v ≠ VDate d) → toSecondsEpoch v = Throw (NotADate v).
Proof. intros H. destruct v; try reflexivity. by destruct (H d). Qed.

(** Seconds are milliseconds truncated: multiplying back loses less than a
    second. *)
Lemma toSecondsEpoch_truncates (ms s : Z) :
  toSecondsEpoch (VDate (new_Date ms)) = Ok s → s * 1000 ≤ ms < s * 1000 + 1000.
Proof. cbn. intros [= <-]. pose proof (Z.div_mod ms 1000).
  pose proof (Z.mod_pos_bound ms 1000). lia. Qed.

(** ** The constructor *)

Lemma or_default_falsy `{Truthy A} (x : option A) (d : A) :
  truthy x = false → or_default x d = d.
Proof.
  destruct x as [v|]; cbn; [|done].
  intros E. change (truthy v = false) in E. by rewrite E.
Qed.

Lemma or_default_truthy `{Truthy A} (x : option A) (d : A) :
  truthy d = true → truthy (or_default x d) = true.
Proof.
  intros Hd. destruct x as [v|]; cbn; [|done].
  by destruct (truthy v) eqn:E.
Qed.

(** C6: the resolved configuration has a value for every optional option,
    an omitted option takes its default, and the defaults are the documented
    ones.  Nothing is raised: [constructor] is a total function, and
    building the store returns it whatever [createTable] runs into. *)
Theorem constructor_defaults (options : RawOptions) :
  (∀ f, configured (constructor options) f ≠ VUndefined) ∧
  (∀ f, supplied options f = VUndefined →
        configured (constructor options) f = default_of f) ∧
  (∀ callback w,
     fst (new_DynamoDBStoreV3 options callback w) = Ok (constructor options)) ∧
  default_of table_name = VString "sessions" ∧
  default_of table_hashPrefix = VString "sess_" ∧
  default_of table_hashKey = VString "id" ∧
  default_of table_dataAttribute = VString "sess" ∧
  default_of table_readCapacityUnits = VNumber 5 ∧
  default_of table_writeCapacityUnits = VNumber 5 ∧
  default_of opt_touchInterval = VNumber 30000 ∧
  default_of opt_ttl = VNumber 86400000 ∧
  default_of opt_keepExpired = VBoolean false.
Proof.
  split; [by intros []|]. split; [|by repeat split].
  destruct options as [[n hp hk da rcu wcu] dc ti tl ke].
  intros [] Hf; cbn in *;
    match goal with
    | H : _ ?o = VUndefined |- _ => destruct o; [discriminate H | reflexivity]
    end.
Qed.

Lemma constructor_defaults_witness :
  configured (constructor no_options) table_name = VString "sessions" ∧
  configured (constructor no_options) table_hashPrefix = VString "sess_" ∧
  configured (constructor no_options) table_hashKey = VString "id" ∧
  configured (constructor no_options) table_dataAttribute = VString "sess" ∧
  configured (constructor no_options) table_readCapacityUnits = VNumber 5 ∧
  configured (constructor no_options) table_writeCapacityUnits = VNumber 5 ∧
  configured (constructor no_options) opt_touchInterval = VNumber 30000 ∧
  configured (constructor no_options) opt_ttl = VNumber 86400000 ∧
  configured (constructor no_options) opt_keepExpired = VBoolean false.
Proof.
  destruct (constructor_defaults no_options) as (_ & H & _).
  split; [|split; [|split; [|split; [|split; [|split; [|split; [|split]]]]]]].
  - apply (H table_name). reflexivity.
  - apply (H table_hashPrefix). reflexivity.
  - apply (H table_hashKey). reflexivity.
  - apply (H table_dataAttribute). reflexivity.
  - apply (H table_readCapacityUnits). reflexivity.
  - apply (H table_writeCapacityUnits). reflexivity.
  - apply (H opt_touchInterval). reflexivity.
  - apply (H opt_ttl). reflexivity.
  - apply (H opt_keepExpired). reflexivity.
Defined.

(** C9, the part that fails: a store built from no options at all holds
    [keepExpired = false], a falsy value, so it is not true that no store
    holds a falsy value for any optional option. *)
Lemma keepExpired_default_is_falsy :
  ¬ (∀ (options : RawOptions) (f : OptionName),
       truthy (configured (constructor options) f) = true).
Proof. intros H. specialize (H no_options opt_keepExpired). discriminate H. Qed.

(** C9, amended: every option is tested for truthiness, so a falsy value
    (omitted, [0], the empty string, [false]) is replaced by the default and
    a truthy one is kept; hence every optional option other than
    [keepExpired], whose default is itself [false], is truthy in every
    store. *)
Theorem constructor_replaces_falsy (options : RawOptions) :
  (∀ f, truthy (supplied options f) = false →
        configured (constructor options) f = default_of f) ∧
  (∀ f, truthy (supplied options f) = true →
        configured (constructor options) f = supplied options f) ∧
  (∀ f, f ≠ opt_keepExpired →
        truthy (configured (constructor options) f) = true).
Proof.
  destruct options as [[n hp hk da rcu wcu] dc ti tl ke].
  split; [|split].
  - intros [] Hf; cbn in *;
      match goal with
      | H : truthy (_ ?o) = false |- _ =>
          destruct o as [v|]; [|reflexivity]; cbn in H |- *;
          change (truthy v = false) in H; by rewrite H
      end.
  - intros [] Hf; cbn in *;
      match goal with
      | H : truthy (_ ?o) = true |- _ =>
          destruct o as [v|]; [|discriminate H]; cbn in H |- *;
          change (truthy v = true) in H; by rewrite H
      end.
  - intros [] Hf; try (by destruct Hf); cbn; by apply or_default_truthy.
Qed.

Lemma constructor_replaces_falsy_witness :
  configured (constructor falsy_options) opt_touchInterval = VNumber 30000 ∧
  configured (constructor falsy_options) table_hashPrefix = VString "sess_" ∧
  configured (constructor falsy_options) table_name = VString "sessions" ∧
  truthy (configured (constructor falsy_options) opt_ttl) = true.
Proof.
  destruct (constructor_replaces_falsy falsy_options) as (Hfalsy & _ & Htruthy).
  split; [|split; [|split]].
  - apply (Hfalsy opt_touchInterval). reflexivity.
  - apply (Hfalsy table_hashPrefix). reflexivity.
  - apply (Hfalsy table_name). reflexivity.
  - apply (Htruthy opt_ttl). discriminate.
Defined.

(** ** Expiration *)

(** C5: [getExpiration] adds to the current time the fixed ttl when there is
    one, else the payload's numeric [cookie.maxAge], else the default ttl;
    it always returns a date and changes nothing. *)
Theorem getExpiration_spec (options : DynamoDBStoreV3Options)
    (sess : SessionData) (w : World) :
  (∀ t, ttl options = Some t →
        getExpiration options sess w = (Ok (new_Date (clock w + t)), w)) ∧
  (∀ c age, ttl options = None → cookie sess = Some c → maxAge c = Some age →
        getExpiration options sess w = (Ok (new_Date (clock w + age)), w)) ∧
  (ttl options = None →
   (cookie sess = None ∨ ∃ c, cookie sess = Some c ∧ maxAge c = None) →
   getExpiration options sess w = (Ok (new_Date (clock w + DEFAULT_TTL)), w)) ∧
  (∃ d, getExpiration options sess w = (Ok d, w)).
Proof.
  cbv [getExpiration bind Date_now ret].
  repeat split.
  - by intros t ->.
  - intros [a] age -> -> Ha. cbn in Ha. by rewrite Ha.
  - intros -> [-> | ([a] & -> & Ha)]; [done|]. cbn in Ha. by rewrite Ha.
  - destruct (ttl options); [by eexists|].
    destruct (cookie sess) as [[[a|]]|]; by eexists.
Qed.

Lemma getExpiration_spec_witness :
  getExpiration default_store cookie_session fresh_world =
    (Ok (new_Date (1700000000000 + 86400000)), fresh_world) ∧
  getExpiration no_ttl_store cookie_session fresh_world =
    (Ok (new_Date (1700000000000 + 60000)), fresh_world) ∧
  getExpiration no_ttl_store empty_session fresh_world =
    (Ok (new_Date (1700000000000 + 86400000)), fresh_world).
Proof.
  split; [|split].
  - destruct (getExpiration_spec default_store cookie_session fresh_world)
      as (H & _). apply (H 86400000). reflexivity.
  - destruct (getExpiration_spec no_ttl_store cookie_session fresh_world)
      as (_ & H & _).
    apply (H {| maxAge := Some 60000 |} 60000); reflexivity.
  - destruct (getExpiration_spec no_ttl_store empty_session fresh_world)
      as (_ & _ & H & _).
    apply H; [reflexivity | by left].
Defined.

(** C10: a store built by the constructor always has a ttl, so
    [getExpiration] returns now + ttl for every payload and the payload,
    [cookie.maxAge] included, has no influence on it. *)
Theorem constructed_store_ignores_maxAge (options : RawOptions)
    (sess : SessionData) (w : World) :
  ∃ t, ttl (constructor options) = Some t ∧
       getExpiration (constructor options) sess w =
         (Ok (new_Date (clock w + t)), w) ∧
       ∀ sess', getExpiration (constructor options) sess' w =
                getExpiration (constructor options) sess w.
Proof.
  eexists. split; [reflexivity|]. split; reflexivity.
Qed.

(** ** The client *)

Lemma no_fault_tail (n : nat) (fs : list (option Error)) :
  no_fault (S n) fs = true → no_fault n (tail fs) = true.
Proof. destruct fs as [|[e|] fs]; cbn; [by destruct n | done | done]. Qed.

Lemma no_fault_le (n m : nat) (fs : list (option Error)) :
  (n ≤ m)%nat → no_fault m fs = true → no_fault n fs = true.
Proof.
  revert m fs. induction n as [|n IH]; intros m fs Hle H; [done|].
  destruct m as [|m]; [lia|].
  destruct fs as [|[e|] fs]; cbn in *; [done | done |].
  apply (IH m); [lia | done].
Qed.

(** A rejected request: the error is thrown, the request is logged once and
    the table is left alone. *)
Lemma send_rejected (c : Command) (w : World) (e : Error) fs :
  faults w = Some e :: fs →
  send c w = (Throw e, issued c w).
Proof. intros H. unfold send, issued. by rewrite H. Qed.

(** An answered request: the service performs it. *)
Lemma send_answered (c : Command) (w : World) :
  no_fault 1 (faults w) = true →
  send c w = (fst (perform (plain_name w) c (items w)),
              with_items (snd (perform (plain_name w) c (items w))) (issued c w)).
Proof.
  intros H. unfold send, issued. destruct w as [clk its fs snt cls pn].
  cbn in *. destruct fs as [|[e|] fs]; [|done|];
    by destruct (perform pn c its).
Qed.

Lemma send_logs (c : Command) (w : World) :
  sent (snd (send c w)) = sent w ++ [c] ∧ calls (snd (send c w)) = calls w
  ∧ clock (snd (send c w)) = clock w.
Proof.
  unfold send. destruct (faults w) as [|[e|] fs]; cbn;
    try destruct (perform (plain_name w) c (items w)); done.
Qed.

(** ** Errors of the helper inside [set] *)

(** C8: [toSecondsEpoch] throws on every value that is not a Date and
    returns the floor of milliseconds / 1000 on a Date; [set] is [set_with]
    at that helper, and whatever the helper throws at either call site of
    [set] is caught there and handed to the callback as its argument, no
    request being issued. *)
Theorem toSecondsEpoch_guarded_in_set :
  (∀ v, (∀ d, v ≠ VDate d) → toSecondsEpoch v = Throw (NotADate v)) ∧
  (∀ d, toSecondsEpoch (VDate d) = Ok (getTime d / 1000)) ∧
  (∀ options, set options = set_with options toSecondsEpoch) ∧
  (∀ options toSeconds sid sess callback w d e,
     getExpiration options sess w = (Ok d, w) →
     toSeconds (VDate d) = Throw e ∨
     ((∃ s, toSeconds (VDate d) = Ok s) ∧
      toSeconds (VDate (new_Date (clock w))) = Throw e) →
     set_with options toSeconds sid sess (Some callback) w =
       (callback [AError e], with_calls (calls w ++ [[AError e]]) w)).
Proof.
  split; [exact toSecondsEpoch_other|].
  split; [exact toSecondsEpoch_Date|].
  split; [reflexivity|].
  intros options toSeconds sid sess callback w d e Hd Hthrow.
  unfold set_with, try_catch, bind at 1. rewrite Hd.
  unfold bind at 1, lift at 1.
  destruct Hthrow as [-> | [[s ->] Hnow]]; [reflexivity|].
  unfold bind at 1, Date_now at 1, bind at 1, lift at 1.
  by rewrite Hnow.
Qed.

(** A helper that rejects every date, to exercise the guard. *)
Lemma toSecondsEpoch_guarded_in_set_witness :
  toSecondsEpoch (VNumber 5) = Throw (NotADate (VNumber 5)) ∧
  set_with default_store (λ v, Throw (NotADate v)) "abc" empty_session
           (Some quiet) fresh_world =
    (Ok tt,
     with_calls [[AError (NotADate (VDate (new_Date 1700086400000)))]]
                fresh_world).
Proof.
  destruct toSecondsEpoch_guarded_in_set as (Hother & _ & _ & Hguard).
  split.
  - apply Hother. discriminate.
  - apply (Hguard default_store (λ v, Throw (NotADate v)) "abc" empty_session
                  quiet fresh_world (new_Date 1700086400000)).
    + reflexivity.
    + left. reflexivity.
Defined.

(** ** Save and load *)

Lemma getExpiration_total (options : DynamoDBStoreV3Options)
    (sess : SessionData) (w : World) :
  ∃ d, getExpiration options sess w = (Ok d, w).
Proof.
  cbv [getExpiration bind Date_now ret].
  destruct (ttl options); [by eexists|].
  destruct (cookie sess) as [[[a|]]|]; by eexists.
Qed.

Lemma getExpiration_ttl (options : DynamoDBStoreV3Options)
    (sess : SessionData) (w : World) (t : Z) :
  ttl options = Some t →
  getExpiration options sess w = (Ok (new_Date (clock w + t)), w).
Proof. intros Ht. cbv [getExpiration bind Date_now ret]. by rewrite Ht. Qed.

(** [set] on a payload that takes the stamp: the request goes out. *)
Lemma set_eval (options : DynamoDBStoreV3Options) (sid : string)
    (sess : SessionData) (callback : option Callback) (w : World) (d : Date) :
  getExpiration options sess w = (Ok d, w) →
  accepts_updated sess = true →
  set options sid sess callback w =
    (Ok tt,
     snd (finally_ (send (set_request options sid sess (clock w / 1000)
                                      (getTime d / 1000))) callback w)).
Proof.
  intros Hd Hacc. unfold set, set_with, try_catch. unfold bind at 1.
  rewrite Hd. cbv [bind lift toSecondsEpoch getTime Date_now assign_updated].
  rewrite Hacc. reflexivity.
Qed.

(** [set] on a payload that refuses the stamp: the write throws inside the
    guarded block, nothing is sent and the callback gets the error. *)
Lemma set_refused (options : DynamoDBStoreV3Options) (sid : string)
    (sess : SessionData) (callback : option Callback) (w : World) :
  accepts_updated sess = false →
  set options sid sess callback w =
    invoke_if_function callback [AError (TypeError "updated")] w.
Proof.
  intros Hacc. destruct (getExpiration_total options sess w) as [d Hd].
  unfold set, set_with, try_catch. unfold bind at 1.
  rewrite Hd. cbv [bind lift toSecondsEpoch getTime Date_now assign_updated].
  rewrite Hacc. reflexivity.
Qed.

(** [set] leaves the clock alone. *)
Lemma set_clock (options : DynamoDBStoreV3Options) (sid : string)
    (sess : SessionData) (callback : option Callback) (w : World) :
  clock (snd (set options sid sess callback w)) = clock w.
Proof.
  destruct (accepts_updated sess) eqn:Hacc.
  - destruct (getExpiration_total options sess w) as [d Hd].
    rewrite (set_eval options sid sess callback w d Hd Hacc). cbn [snd].
    unfold finally_, invoke.
    match goal with |- context [send ?c w] =>
      destruct (send_logs c w) as (_ & _ & Hk); destruct (send c w) as [r w1]
    end.
    cbn [snd] in Hk. destruct callback as [f|]; [destruct (f [])|]; exact Hk.
  - rewrite (set_refused options sid sess callback w Hacc).
    by destruct callback.
Qed.


(** A rejected save: [finally] calls the callback with no argument all the
    same; one request was issued and the table is as it was. *)
Lemma set_rejected (options : DynamoDBStoreV3Options) (sid : string)
    (sess : SessionData) (callback : Callback) (w : World) (e : Error) fs :
  accepts_updated sess = true →
  faults w = Some e :: fs →
  let w' := snd (set options sid sess (Some callback) w) in
  calls w' = calls w ++ [[]] ∧ items w' = items w ∧
  length (sent w') = S (length (sent w)).
Proof.
  intros Hacc Hf. destruct (getExpiration_total options sess w) as [d Hd].
  cbv zeta. rewrite (set_eval options sid sess (Some callback) w d Hd Hacc).
  unfold finally_, invoke. rewrite (send_rejected _ w e fs Hf).
  destruct (callback []); cbn; rewrite length_app; cbn;
    (split; [done | split; [done | lia]]).
Qed.





(** ** Touch *)

(** [send(command).finally(callback)]: one request, then one call of the
    callback with no argument, whatever the outcome of the request. *)
Lemma finally_send_logs (c : Command) (callback : Callback) (w : World) :
  sent (snd (finally_ (send c) (Some callback) w)) = sent w ++ [c] ∧
  calls (snd (finally_ (send c) (Some callback) w)) = calls w ++ [[]].
Proof.
  destruct (send_logs c w) as (Hs & Hc & _).
  unfold finally_, invoke. destruct (send c w) as [r w'].
  cbn in *. destruct (callback []); cbn; by rewrite Hs, Hc.
Qed.

(** A touch that is due: [updated] is missing or 0, or [touchInterval] has
    gone by since it. *)
Lemma touch_due (options : DynamoDBStoreV3Options) (sid : string)
    (sess : SessionData) (callback : option Callback) (w : World) (t : Z) :
  ttl options = Some t →
  (∀ u, updated sess = Some u → u = 0 ∨ u + touchInterval options ≤ clock w) →
  touch options sid sess callback w =
    (Ok tt,
     snd (finally_ (send (touch_request options sid t (clock w))) callback w)).
Proof.
  intros Ht Hdue. unfold touch_request. run. rewrite Ht.
  cbn [toSecondsEpoch getTime].
  destruct (updated sess) as [u|]; [|reflexivity].
  cbv [truthy truthy_option truthy_Z].
  destruct (Z.eqb_spec u 0) as [->|Hne]; [reflexivity|]. cbn [negb].
  destruct (Hdue u eq_refl) as [?|Hle]; [done|].
  by rewrite (proj2 (Z.leb_le _ _) Hle).
Qed.

(** A touch inside the interval: no request, the callback is invoked with
    no argument. *)
Lemma touch_throttled (options : DynamoDBStoreV3Options) (sid : string)
    (sess : SessionData) (callback : Callback) (w : World) (u : Z) :
  updated sess = Some u →
  u ≠ 0 →
  clock w < u + touchInterval options →
  callback [] = Ok tt →
  touch options sid sess (Some callback) w =
    (Ok tt, with_calls (calls w ++ [[]]) w).
Proof.
  intros Hu Hne Hlt Hcb. run. rewrite Hu.
  cbv [truthy truthy_option truthy_Z].
  destruct (Z.eqb_spec u 0) as [?|_]; [done|]. cbn [negb].
  rewrite (proj2 (Z.leb_gt _ _) Hlt).
  by rewrite Hcb.
Qed.

(** A touch stamps [updated] in milliseconds, so a touch that follows a
    successful touch, with the payload as then stored, is throttled until
    [touchInterval] has gone by, and is due afterwards. *)
Lemma touch_after_touch (options : DynamoDBStoreV3Options)
    (sid : string) (sess stored : SessionData) (expires : option Z)
    (w : World) (t elapsed : Z) :
  ttl options = Some t →
  (∀ u, updated sess = Some u → u = 0 ∨ u + touchInterval options ≤ clock w) →
  no_fault 1 (faults w) = true →
  path_below_payload (plain_name w) (hashKey (table options))
                     (dataAttribute (table options)) = true →
  items w !! getSessionID options sid =
    Some {| item_sess := Some stored; item_expires := expires |} →
  0 < clock w →
  0 ≤ elapsed →
  let w1 := snd (touch options sid sess (Some quiet) w) in
  let touched := with_updated (clock w) stored in
  item_sess <$> (items w1 !! getSessionID options sid) = Some (Some touched) ∧
  (elapsed < touchInterval options →
   sent (snd (touch options sid touched (Some quiet) (advance elapsed w1)))
   = sent w1) ∧
  (touchInterval options ≤ elapsed →
   sent (snd (touch options sid touched (Some quiet) (advance elapsed w1)))
   = sent w1 ++ [touch_request options sid t (clock w + elapsed)]).
Proof.
  intros Ht Hdue Hok Hplain Hit Hclock Hel w1 touched. subst w1.
  rewrite (touch_due options sid sess (Some quiet) w t Ht Hdue).
  cbn [snd]. unfold finally_, invoke, quiet.
  rewrite (send_answered _ w Hok). unfold touch_request.
  cbn [perform]. rewrite Hplain, Hit.
  cbn [fst snd items with_calls with_items].
  rewrite lookup_insert_eq. split; [reflexivity|]. split; intros Hint.
  - erewrite touch_throttled; [reflexivity | reflexivity | lia | | reflexivity].
    cbn. lia.
  - erewrite (touch_due options sid touched _ _ t Ht).
    + cbn [snd]. unfold finally_, invoke.
      match goal with |- context [send ?c ?x] =>
        destruct (send_logs c x) as (Hs & _ & _); destruct (send c x) as [r w2]
      end.
      cbn [snd] in *. cbn [sent with_calls]. rewrite Hs. reflexivity.
    + intros u [= <-]. right. cbn. lia.
Qed.

(** C1, at the save: [set] stamps [updated] in seconds and [touch] reads it
    as milliseconds, so a touch with the payload as saved, even with less
    than [touchInterval] elapsed, is not throttled: it issues an update
    request.  The hypothesis on the clock holds at every time later than
    about [touchInterval] milliseconds after the epoch. *)
Theorem touch_after_set_writes (options : DynamoDBStoreV3Options)
    (sid : string) (sess : SessionData) (w : World) (t elapsed : Z) :
  ttl options = Some t →
  no_fault 1 (faults w) = true →
  0 ≤ elapsed < touchInterval options →
  clock w / 1000 + touchInterval options ≤ clock w →
  let w1 := snd (set options sid sess (Some quiet) w) in
  let saved := with_updated (clock w / 1000) sess in
  sent (snd (touch options sid saved (Some quiet) (advance elapsed w1))) =
    sent w1 ++ [touch_request options sid t (clock w + elapsed)] ∧
  ¬ touch_after_save_is_throttled options sid sess elapsed w.
Proof.
  intros Ht Hok Hel Hclock w1 saved.
  assert (Hsent : sent (snd (touch options sid saved (Some quiet)
                                   (advance elapsed w1))) =
                  sent w1 ++ [touch_request options sid t (clock w + elapsed)]).
  { rewrite (touch_due options sid saved (Some quiet) (advance elapsed w1) t Ht).
    - cbn [snd].
      destruct (finally_send_logs
                  (touch_request options sid t (clock (advance elapsed w1)))
                  quiet (advance elapsed w1)) as [-> _].
      subst w1. cbn [advance with_clock sent clock].
      by rewrite set_clock.
    - intros u [= <-]. right. subst w1. cbn [advance with_clock clock].
      rewrite set_clock. destruct Hel; lia. }
  split; [exact Hsent|].
  unfold touch_after_save_is_throttled. fold w1 saved. rewrite Hsent.
  intros Heq. apply (f_equal length) in Heq.
  rewrite length_app in Heq. cbn in Heq. lia.
Qed.

Lemma touch_after_set_writes_witness :
  ¬ touch_after_save_is_throttled default_store "abc" cookie_session 0
      fresh_world.
Proof.
  apply (touch_after_set_writes default_store "abc" cookie_session fresh_world
                                86400000 0).
  - reflexivity.
  - reflexivity.
  - by vm_compute.
  - by vm_compute.
Defined.

(** ** Destroy and the expired record *)

(** [isExpired] looks at the clock only. *)
Lemma isExpired_clock (expires : option Z) (w w' : World) :
  clock w' = clock w →
  isExpired expires w' = (fst (isExpired expires w), w').
Proof.
  intros Hc. destruct expires as [e|]; [|reflexivity].
  by rewrite !isExpired_eval, Hc.
Qed.

(** A successful destroy removes the item and calls back with [null]. *)
Lemma destroy_deletes (options : DynamoDBStoreV3Options) (sid : string)
    (callback : Callback) (w : World) :
  no_fault 1 (faults w) = true →
  let w' := snd (destroy options sid (Some callback) w) in
  items w' = delete (getSessionID options sid) (items w) ∧
  sent w' = sent w ++ [delete_request options sid] ∧
  calls w' = calls w ++ guarded_calls callback [ANull] ∧
  clock w' = clock w ∧
  faults w' = tail (faults w).
Proof.
  intros Hok. run. fold (getSessionID options sid).
  fold (delete_request options sid).
  rewrite (send_answered _ w Hok). unfold delete_request at 1 2.
  cbn [perform fst snd]. unfold guarded_calls.
  destruct (callback [ANull]); cbn; rewrite <- ?app_assoc; done.
Qed.

(** A rejected destroy hands the error to the callback; one request was
    issued and the table is as it was. *)
Lemma destroy_rejected (options : DynamoDBStoreV3Options) (sid : string)
    (callback : Callback) (w : World) (e : Error) fs :
  faults w = Some e :: fs →
  destroy options sid (Some callback) w =
    (callback [AError e],
     with_calls (calls w ++ [[AError e]]) (issued (delete_request options sid) w)).
Proof.
  intros Hf. run. fold (getSessionID options sid).
  fold (delete_request options sid).
  by rewrite (send_rejected _ w e fs Hf).
Qed.

(** A rejected read hands the error to the callback. *)
Lemma get_rejected (options : DynamoDBStoreV3Options) (sid : string)
    (callback : Callback) (w : World) (e : Error) fs :
  faults w = Some e :: fs →
  get options sid callback w =
    (callback [AError e],
     with_calls (calls w ++ [[AError e]]) (issued (get_request options sid) w)).
Proof.
  intros Hf. run. fold (getSessionID options sid).
  fold (get_request options sid).
  by rewrite (send_rejected _ w e fs Hf).
Qed.

(** A read that finds nothing calls back with [(null, null)]. *)
Lemma get_not_found (options : DynamoDBStoreV3Options) (sid : string)
    (callback : Callback) (w : World) :
  no_fault 1 (faults w) = true →
  items w !! getSessionID options sid = None →
  calls (snd (get options sid callback w)) =
    calls w ++ guarded_calls callback [ANull; ANull].
Proof.
  intros Hok Hnone. run. fold (getSessionID options sid).
  fold (get_request options sid).
  rewrite (send_answered _ w Hok). unfold get_request.
  cbn [perform fst snd]. rewrite Hnone. unfold guarded_calls.
  destruct (callback [ANull; ANull]); cbn; rewrite <- ?app_assoc; done.
Qed.

(** A read that finds an expired record hands over to
    [handleExpiredSession]. *)
Lemma get_expired_delegates (options : DynamoDBStoreV3Options) (sid : string)
    (callback : Callback) (w : World) (r : Item) :
  items w !! getSessionID options sid = Some r →
  fst (isExpired (item_expires r) w) = Ok true →
  no_fault 1 (faults w) = true →
  get options sid callback w =
    (Ok tt,
     snd (handleExpiredSession options sid (Some callback)
            (issued (get_request options sid) w))).
Proof.
  intros Hit Hexp Hok. unfold get, try_catch, bind at 1.
  fold (get_request options sid).
  rewrite (send_answered _ w Hok). unfold get_request at 1 2.
  cbn [perform fst snd]. rewrite Hit. unfold bind at 1.
  rewrite (isExpired_clock _ w) by reflexivity. rewrite Hexp.
  reflexivity.
Qed.

(** C3: when [get] finds an expired record, with [keepExpired] false it
    hands the caller's callback to [destroy], which deletes the record, so
    that a later load finds nothing and calls back with [(null, null)]; with
    [keepExpired] true it invokes the callback with no argument and leaves
    the record in place. *)
Theorem get_expired (options : DynamoDBStoreV3Options) (sid : string)
    (callback : Callback) (w : World) (r : Item) :
  items w !! getSessionID options sid = Some r →
  fst (isExpired (item_expires r) w) = Ok true →
  no_fault 1 (faults w) = true →
  let read := issued (get_request options sid) w in
  let w' := snd (get options sid callback w) in
  (keepExpired options = false →
     get options sid callback w =
       (Ok tt, snd (destroy options sid (Some callback) read)) ∧
     (no_fault 2 (faults w) = true →
        items w' = delete (getSessionID options sid) (items w) ∧
        sent w' = sent w ++ [get_request options sid; delete_request options sid] ∧
        calls w' = calls w ++ guarded_calls callback [ANull] ∧
        (no_fault 3 (faults w) = true →
         ∀ later callback',
           calls (snd (get options sid callback' (advance later w'))) =
           calls w' ++ guarded_calls callback' [ANull; ANull]))) ∧
  (keepExpired options = true →
     get options sid callback w = (Ok tt, with_calls (calls w ++ [[]]) read) ∧
     items w' !! getSessionID options sid = Some r).
Proof.
  intros Hit Hexp Hok read w'. subst w'.
  rewrite (get_expired_delegates options sid callback w r Hit Hexp Hok).
  fold read. unfold handleExpiredSession. cbn [snd].
  split; intros Hkeep; rewrite Hkeep.
  - split; [reflexivity|]. intros Hok2. unfold detached. cbn [snd].
    assert (Hokr : no_fault 1 (faults read) = true)
      by (apply no_fault_tail in Hok2; exact Hok2).
    destruct (destroy_deletes options sid callback read Hokr)
      as (Hi & Hs & Hc & Hclk & Hf).
    split; [exact Hi|]. split; [by rewrite Hs; cbn; rewrite <- app_assoc|].
    split; [exact Hc|]. intros Hok3 later callback'.
    rewrite get_not_found; [reflexivity | |].
    + cbn [advance with_clock faults]. rewrite Hf. cbn [read issued faults with_faults].
      apply (no_fault_tail 1), (no_fault_tail 2). exact Hok3.
    + cbn [advance with_clock items]. rewrite Hi. apply lookup_delete_eq.
  - unfold invoke_if_function, invoke. cbn [snd].
    split; [reflexivity | exact Hit].
Qed.

Lemma get_expired_witness :
  (get default_store "abc" quiet stale_world =
     (Ok tt, snd (destroy default_store "abc" (Some quiet)
                    (issued (get_request default_store "abc") stale_world))) ∧
   items (snd (get default_store "abc" quiet stale_world)) !! "sess_abc" = None) ∧
  (get keeping_store "abc" quiet stale_world =
     (Ok tt, with_calls [[]]
               (issued (get_request keeping_store "abc") stale_world)) ∧
   items (snd (get keeping_store "abc" quiet stale_world)) !! "sess_abc"
   = Some stale_item).
Proof.
  split.
  - destruct (get_expired default_store "abc" quiet stale_world stale_item)
      as [Hdestroy _]; [reflexivity | reflexivity | reflexivity |].
    destruct (Hdestroy eq_refl) as [Hfwd Hgone]. split; [exact Hfwd|].
    destruct (Hgone eq_refl) as [-> _]. reflexivity.
  - destruct (get_expired keeping_store "abc" quiet stale_world stale_item)
      as [_ Hkeep]; [reflexivity | reflexivity | reflexivity |].
    exact (Hkeep eq_refl).
Defined.

(** ** Errors of the database client *)

(** C4, as stated, fails: [touch] hands its callback to [finally], which
    calls it with no argument, so a rejected touch update never shows its
    error to the caller. *)
Lemma touch_hides_client_error :
  ¬ passes_error service_down failing_world
      (snd (touch default_store "abc" empty_session (Some quiet) failing_world)).
Proof. intros [rest H]. vm_compute in H. discriminate H. Qed.

(** C4, amended: [get] and [destroy] hand an error of the database client
    to the callback as it is, as first and only argument, after exactly one
    request and with the table untouched (also when the rejected request is
    the delete that [get] starts for an expired record); [touch] issues its
    one request and calls back with no argument, error or not. *)
Theorem client_errors (options : DynamoDBStoreV3Options) (sid : string)
    (callback : Callback) (w : World) (e : Error) :
  (∀ fs, faults w = Some e :: fs →
     get options sid callback w =
       (callback [AError e],
        with_calls (calls w ++ [[AError e]])
                   (issued (get_request options sid) w))) ∧
  (∀ fs, faults w = Some e :: fs →
     destroy options sid (Some callback) w =
       (callback [AError e],
        with_calls (calls w ++ [[AError e]])
                   (issued (delete_request options sid) w))) ∧
  (∀ fs r, faults w = None :: Some e :: fs →
     items w !! getSessionID options sid = Some r →
     fst (isExpired (item_expires r) w) = Ok true →
     keepExpired options = false →
     let w' := snd (get options sid callback w) in
     calls w' = calls w ++ [[AError e]] ∧
     sent w' = sent w ++ [get_request options sid; delete_request options sid] ∧
     items w' = items w) ∧
  (∀ fs sess t, faults w = Some e :: fs →
     ttl options = Some t →
     (∀ u, updated sess = Some u →
           u = 0 ∨ u + touchInterval options ≤ clock w) →
     touch options sid sess (Some callback) w =
       (Ok tt,
        with_calls (calls w ++ [[]])
                   (issued (touch_request options sid t (clock w)) w))).
Proof.
  split; [intros fs; apply get_rejected|].
  split; [intros fs; apply destroy_rejected|].
  split.
  - intros fs r Hf Hit Hexp Hkeep w'. subst w'.
    rewrite (get_expired_delegates options sid callback w r Hit Hexp)
      by (by rewrite Hf).
    unfold handleExpiredSession. rewrite Hkeep. unfold detached. cbn [snd].
    erewrite destroy_rejected
      by (cbn [issued faults with_faults]; rewrite Hf; reflexivity).
    cbn [snd calls sent items with_calls issued with_faults with_sent].
    by rewrite <- app_assoc.
  - intros fs sess t Hf Ht Hdue.
    rewrite (touch_due options sid sess (Some callback) w t Ht Hdue).
    unfold finally_, invoke.
    rewrite (send_rejected _ w e fs Hf). cbn [snd].
    by destruct (callback []).
Qed.

Lemma client_errors_witness :
  get default_store "abc" quiet failing_world =
    (Ok tt,
     with_calls [[AError service_down]]
                (issued (get_request default_store "abc") failing_world)) ∧
  destroy default_store "abc" (Some quiet) failing_world =
    (Ok tt,
     with_calls [[AError service_down]]
                (issued (delete_request default_store "abc") failing_world)) ∧
  calls (snd (get default_store "abc" quiet
                  (with_faults [None; Some service_down] stale_world))) =
    [[AError service_down]] ∧
  touch default_store "abc" empty_session (Some quiet) failing_world =
    (Ok tt,
     with_calls [[]]
                (issued (touch_request default_store "abc" 86400000
                                       1700000000000) failing_world)).
Proof.
  split; [|split; [|split]].
  - destruct (client_errors default_store "abc" quiet failing_world
                            service_down) as (H & _).
    apply (H []). reflexivity.
  - destruct (client_errors default_store "abc" quiet failing_world
                            service_down) as (_ & H & _).
    apply (H []). reflexivity.
  - destruct (client_errors default_store "abc" quiet
                (with_faults [None; Some service_down] stale_world)
                service_down) as (_ & _ & H & _).
    destruct (H [] stale_item) as (Hcalls & _);
      [reflexivity | reflexivity | reflexivity | reflexivity |].
    exact Hcalls.
  - destruct (client_errors default_store "abc" quiet failing_world
                            service_down) as (_ & _ & _ & H).
    apply (H [] empty_session 86400000); [reflexivity | reflexivity |].
    intros u Hu. discriminate Hu.
Defined.

(** ** Further properties of the helpers *)

(** X5: seconds are milliseconds truncated.  Converting any instant within
    second [s] gives [s] back, and the conversion keeps the order of
    instants. *)
Theorem toSecondsEpoch_round_trip (s r ms ms' : Z) :
  0 ≤ r < 1000 →
  ms ≤ ms' →
  toSecondsEpoch (VDate (new_Date (s * 1000 + r))) = Ok s ∧
  ∃ a b, toSecondsEpoch (VDate (new_Date ms)) = Ok a ∧
         toSecondsEpoch (VDate (new_Date ms')) = Ok b ∧ a ≤ b.
Proof.
  intros Hr Hle. cbn [toSecondsEpoch getTime]. split.
  - f_equal. rewrite Z.add_comm, Z.div_add by lia.
    rewrite Z.div_small by lia. lia.
  - eexists _, _. split; [reflexivity|]. split; [reflexivity|].
    apply Z.div_le_mono; lia.
Qed.

Lemma toSecondsEpoch_round_trip_witness :
  toSecondsEpoch (VDate (new_Date (1700000000 * 1000 + 999))) = Ok 1700000000.
Proof.
  destruct (toSecondsEpoch_round_trip 1700000000 999 0 1) as [H _];
    [lia | lia | exact H].
Defined.

(** Time only moves a record towards expiry. *)
Lemma isExpired_later (expires : option Z) (w : World) (later : Z) :
  0 ≤ later →
  fst (isExpired expires w) = Ok true →
  fst (isExpired expires (advance later w)) = Ok true.
Proof.
  intros Hl. destruct expires as [e|]; [|done].
  rewrite !isExpired_eval. cbn [fst clock advance with_clock].
  intros [= H]. apply bool_decide_eq_true_1 in H. f_equal.
  apply bool_decide_eq_true_2. destruct H as [?|H]; [by left | right].
  etrans; [exact H|]. apply Z.div_le_mono; lia.
Qed.

(** X6: once [isExpired] holds of a record it holds at every later time,
    and a record whose [expires] is missing is expired at all times. *)
Theorem isExpired_monotone (expires : option Z) (w : World) (later : Z) :
  0 ≤ later →
  isExpired expires w = (Ok true, w) →
  isExpired expires (advance later w) = (Ok true, advance later w) ∧
  isExpired None (advance later w) = (Ok true, advance later w).
Proof.
  intros Hl H. split; [|reflexivity].
  rewrite (isExpired_clock expires (advance later w) (advance later w))
    by reflexivity.
  by rewrite (isExpired_later expires w later Hl) by (by rewrite H).
Qed.

Lemma isExpired_monotone_witness :
  isExpired (Some 1700000000) (advance 5000 fresh_world) =
    (Ok true, advance 5000 fresh_world).
Proof.
  destruct (isExpired_monotone (Some 1700000000) fresh_world 5000) as [H _];
    [lia | reflexivity | exact H].
Defined.

Lemma append_inj_l (p a b : string) : p +:+ a = p +:+ b → a = b.
Proof. induction p as [|c p IH]; cbn; [done|]. intros [= H]. by apply IH. Qed.

Lemma prefix_append (p s : string) : String.prefix p (p +:+ s) = true.
Proof.
  induction p as [|c p IH]; [by destruct s|].
  change (String.prefix (String c p) (String c (p +:+ s)) = true).
  unfold String.prefix; fold String.prefix.
  destruct (Ascii.ascii_dec c c); [exact IH | done].
Qed.

(** X4: the storage key is the configured prefix followed by the session
    id, and two different session ids never share a key. *)
Theorem getSessionID_distinct (options : DynamoDBStoreV3Options)
    (sid sid' : string) :
  sid ≠ sid' →
  getSessionID options sid ≠ getSessionID options sid' ∧
  String.prefix (hashPrefix (table options)) (getSessionID options sid) = true.
Proof.
  intros Hne. split; [|apply prefix_append].
  intros H. apply Hne. exact (append_inj_l _ _ _ H).
Qed.

Lemma getSessionID_distinct_witness :
  getSessionID default_store "abc" ≠ getSessionID default_store "xyz".
Proof.
  destruct (getSessionID_distinct default_store "abc" "xyz") as [H _];
    [discriminate | exact H].
Defined.

(** ** Table bootstrap *)

(** A request is either answered, and then performed, or rejected. *)
Lemma send_cases (c : Command) (w : World) :
  (no_fault 1 (faults w) = true ∧
   send c w = (fst (perform (plain_name w) c (items w)),
               with_items (snd (perform (plain_name w) c (items w))) (issued c w))) ∨
  (no_fault 1 (faults w) = false ∧
   ∃ e fs, faults w = Some e :: fs ∧ send c w = (Throw e, issued c w)).
Proof.
  destruct (no_fault 1 (faults w)) eqn:Hok.
  - left. split; [done|]. by apply send_answered.
  - right. split; [done|]. destruct (faults w) as [|[e|] fs] eqn:Hf; try done.
    exists e, fs. split; [done|]. by apply (send_rejected c w e fs).
Qed.

(** [tableExists] as one equation. *)
Lemma tableExists_eval (options : DynamoDBStoreV3Options) (w : World) :
  tableExists options w =
  (Ok (no_fault 1 (faults w)), issued (describe_request options) w).
Proof.
  unfold tableExists, try_catch, bind, ret.
  fold (describe_request options).
  destruct (send_cases (describe_request options) w)
    as [[-> ->] | [-> (e & fs & _ & ->)]]; reflexivity.
Qed.

(** X1: [tableExists] issues one describe request and never throws: it
    answers [true] when the request is answered and [false] on any
    rejection, whatever the error; the table is left as it was. *)
Theorem tableExists_spec (options : DynamoDBStoreV3Options) (w : World) :
  (no_fault 1 (faults w) = true →
   tableExists options w = (Ok true, issued (describe_request options) w)) ∧
  (∀ e fs, faults w = Some e :: fs →
   tableExists options w = (Ok false, issued (describe_request options) w)) ∧
  items (snd (tableExists options w)) = items w ∧
  sent (snd (tableExists options w)) = sent w ++ [describe_request options].
Proof.
  rewrite tableExists_eval. split; [by intros ->|].
  split; [by intros e fs ->|]. done.
Qed.

Lemma tableExists_spec_witness :
  tableExists default_store fresh_world =
    (Ok true, issued (describe_request default_store) fresh_world) ∧
  tableExists default_store no_table_world =
    (Ok false, issued (describe_request default_store) no_table_world).
Proof.
  split.
  - destruct (tableExists_spec default_store fresh_world) as (H & _).
    apply H. reflexivity.
  - destruct (tableExists_spec default_store no_table_world) as (_ & H & _).
    apply (H (ClientError "ResourceNotFoundException") []). reflexivity.
Defined.

(** [createTable]: the probe, the create request if the probe failed, then
    the callback inside the guarded block. *)
Lemma createTable_eval (options : DynamoDBStoreV3Options)
    (callback : Callback) (w : World) :
  createTable options callback w =
  try_catch (invoke callback []) (λ e, invoke callback [AError e])
    (if no_fault 1 (faults w)
     then issued (describe_request options) w
     else snd (send (create_request options)
                    (issued (describe_request options) w))).
Proof.
  unfold createTable, try_catch. unfold bind at 1.
  rewrite tableExists_eval. fold (create_request options).
  destruct (no_fault 1 (faults w)); reflexivity.
Qed.

Lemma createTable_effect (options : DynamoDBStoreV3Options)
    (callback : Callback) (w : World) :
  let w' := snd (createTable options callback w) in
  sent w' = sent w ++ describe_request options ::
            (if no_fault 1 (faults w) then [] else [create_request options]) ∧
  calls w' = calls w ++ guarded_calls callback [] ∧
  items w' = items w ∧
  (callback [] = Ok tt → fst (createTable options callback w) = Ok tt).
Proof.
  cbv zeta. rewrite createTable_eval.
  set (w1 := issued (describe_request options) w).
  unfold guarded_calls, try_catch, invoke.
  destruct (no_fault 1 (faults w)).
  - destruct (callback []) as [[]|e] eqn:Hcb; cbn; rewrite <- ?app_assoc;
      repeat split; done.
  - destruct (send_logs (create_request options) w1) as (Hs & Hc & _).
    assert (Hi : items (snd (send (create_request options) w1)) = items w).
    { destruct (send_cases (create_request options) w1)
        as [[_ ->] | [_ (e & fs & _ & ->)]]; reflexivity. }
    destruct (send (create_request options) w1) as [r w2]. cbn [snd] in *.
    destruct (callback []) as [[]|e] eqn:Hcb; cbn; rewrite Hs, Hc; subst w1;
      cbn; rewrite <- ?app_assoc; repeat split; done.
Qed.

(** X2: [createTable] probes the table and issues a create request only
    when the probe is rejected; it does not wait for the create request and
    drops its outcome.  The callback is invoked with no argument in both
    cases (and again with the error it threw, if it throws): no error of the
    database client ever reaches it.  The items are untouched. *)
Theorem createTable_spec (options : DynamoDBStoreV3Options)
    (callback : Callback) (w : World) :
  let w' := snd (createTable options callback w) in
  sent w' = sent w ++ describe_request options ::
            (if no_fault 1 (faults w) then [] else [create_request options]) ∧
  calls w' = calls w ++ guarded_calls callback [] ∧
  items w' = items w ∧
  (callback [] = Ok tt → fst (createTable options callback w) = Ok tt).
Proof. apply createTable_effect. Qed.

Lemma createTable_spec_witness :
  fst (createTable default_store quiet no_table_world) = Ok tt.
Proof.
  destruct (createTable_spec default_store quiet no_table_world)
    as (_ & _ & _ & H).
  apply H. reflexivity.
Defined.

(** X3: building a store with the default callback, which rethrows what it
    is given, never throws: the callback is called once, with no argument.
    The table is probed, and created if need be, under the resolved name,
    hash key and capacities. *)
Theorem new_store_default_callback (options : RawOptions) (w : World) :
  let this_options := constructor options in
  let w' := snd (new_DynamoDBStoreV3 options DEFAULT_CALLBACK w) in
  fst (new_DynamoDBStoreV3 options DEFAULT_CALLBACK w) = Ok this_options ∧
  calls w' = calls w ++ [[]] ∧
  items w' = items w ∧
  sent w' = sent w ++ describe_request this_options ::
            (if no_fault 1 (faults w) then [] else [create_request this_options]).
Proof.
  intros this_options w'. subst w'.
  destruct (createTable_effect this_options DEFAULT_CALLBACK w)
    as (Hs & Hc & Hi & _).
  unfold new_DynamoDBStoreV3, bind, detached, ret. fold this_options.
  cbn [fst snd]. by rewrite Hs, Hc, Hi.
Qed.

(** ** What each operation does to the world *)

Lemma send_items (c : Command) (w : World) :
  items (snd (send c w)) =
  if no_fault 1 (faults w) then snd (perform (plain_name w) c (items w)) else items w.
Proof.
  destruct (send_cases c w) as [[-> ->] | [-> (e & fs & _ & ->)]]; reflexivity.
Qed.

Lemma send_faults (c : Command) (w : World) :
  faults (snd (send c w)) = tail (faults w).
Proof.
  destruct (send_cases c w) as [[_ ->] | [_ (e & fs & _ & ->)]]; reflexivity.
Qed.

(** A request changes no item but the one it addresses. *)
Lemma perform_frame (plain : string → bool) (c : Command)
    (m : gmap string Item) (key : string) :
  command_key c ≠ Some key → snd (perform plain c m) !! key = m !! key.
Proof.
  intros Hk. destruct c as [| |t a k|t a k [f v e|f e n]|t a k]; cbn in *;
    try reflexivity.
  - apply lookup_insert_ne. congruence.
  - destruct (path_below_payload plain a f); [|reflexivity].
    destruct (m !! k) as [[[s|] ex]|]; cbn; try reflexivity.
    apply lookup_insert_ne. congruence.
  - apply lookup_delete_ne. congruence.
Qed.

Lemma send_frame (c : Command) (w : World) (key : string) :
  command_key c ≠ Some key → items (snd (send c w)) !! key = items w !! key.
Proof.
  intros Hk. rewrite send_items. destruct (no_fault 1 (faults w)); [|done].
  by apply perform_frame.
Qed.

(** [send(command).finally(callback)], not awaited. *)
Lemma finally_send_effect (c : Command) (callback : option Callback)
    (w : World) :
  let w' := snd (finally_ (send c) callback w) in
  sent w' = sent w ++ [c] ∧
  calls w' = calls w ++ finally_calls callback ∧
  clock w' = clock w ∧
  items w' = items (snd (send c w)) ∧
  faults w' = tail (faults w).
Proof.
  destruct (send_logs c w) as (Hs & Hc & Hk).
  pose proof (send_faults c w) as Hf.
  unfold finally_, invoke, finally_calls. destruct (send c w) as [r w1].
  cbn [snd] in *. destruct callback as [f|]; [destruct (f [])|]; cbn;
    rewrite ?app_nil_r; by rewrite Hs, Hc, Hk, Hf.
Qed.

(** A callback invoked inside a guarded block whose handler passes the
    error on touches nothing but the log of calls. *)
Lemma guarded_invoke_effect (callback : Callback) (args : list Arg)
    (w : World) :
  let w' := snd (try_catch (invoke callback args)
                           (λ e, invoke callback [AError e]) w) in
  sent w' = sent w ∧ items w' = items w ∧ clock w' = clock w ∧
  faults w' = faults w ∧ calls w' = calls w ++ guarded_calls callback args.
Proof.
  unfold try_catch, invoke, guarded_calls.
  destruct (callback args); cbn; rewrite <- ?app_assoc; done.
Qed.

(** X7: [set] reaches its handler only when the payload refuses the write
    of [updated].  For a payload that takes it, whatever the store and the
    state of the service, [set] issues exactly one update request, keyed by
    the prefixed session id and carrying the payload stamped with the time
    in seconds and the expiration in seconds; it returns normally and the
    callback, if any, is called once with no argument, whether the request
    was answered or rejected; the item is replaced, by the payload as the
    document client stores it, when the request is answered, and the table
    is unchanged when it is rejected.  For a payload that refuses the write
    nothing is sent, the table is unchanged and the callback, if any, is
    handed the error. *)
Theorem set_effect (options : DynamoDBStoreV3Options) (sid : string)
    (sess : SessionData) (callback : option Callback) (w : World) :
  ∃ d, getExpiration options sess w = (Ok d, w) ∧
    let w' := snd (set options sid sess callback w) in
    let stamp := clock w / 1000 in
    let expires := getTime d / 1000 in
    (accepts_updated sess = true →
     fst (set options sid sess callback w) = Ok tt ∧
     sent w' = sent w ++ [set_request options sid sess stamp expires] ∧
     calls w' = calls w ++ finally_calls callback ∧
     items w' =
       if no_fault 1 (faults w)
       then <[getSessionID options sid :=
                {| item_sess := Some (as_stored (with_updated stamp sess));
                   item_expires := Some expires |}]> (items w)
       else items w) ∧
    (accepts_updated sess = false →
     set options sid sess callback w =
       invoke_if_function callback [AError (TypeError "updated")] w ∧
     sent w' = sent w ∧
     items w' = items w ∧
     calls w' = calls w ++ match callback with
                           | Some _ => [[AError (TypeError "updated")]]
                           | None => []
                           end).
Proof.
  destruct (getExpiration_total options sess w) as [d Hd].
  exists d. split; [exact Hd|]. cbv zeta. split; intros Hacc.
  - rewrite (set_eval options sid sess callback w d Hd Hacc). cbn [fst snd].
    destruct (finally_send_effect
                (set_request options sid sess (clock w / 1000)
                             (getTime d / 1000))
                callback w) as (Hs & Hc & _ & Hi & _).
    split; [reflexivity|]. split; [exact Hs|]. split; [exact Hc|].
    rewrite Hi, send_items. reflexivity.
  - rewrite (set_refused options sid sess callback w Hacc).
    split; [reflexivity|]. destruct callback as [f|]; cbn;
      by rewrite ?app_nil_r.
Qed.

Lemma set_effect_witness :
  calls (snd (set default_store "abc" cookie_session (Some quiet)
                  failing_world)) = [[]] ∧
  set default_store "abc" frozen_session (Some quiet) fresh_world =
    (Ok tt, with_calls [[AError (TypeError "updated")]] fresh_world).
Proof.
  destruct (set_effect default_store "abc" cookie_session (Some quiet)
                       failing_world) as (d & _ & Hsave & _).
  destruct (set_effect default_store "abc" frozen_session (Some quiet)
                       fresh_world) as (d' & _ & _ & Hrefuse).
  split.
  - destruct (Hsave eq_refl) as (_ & _ & Hc & _). exact Hc.
  - destruct (Hrefuse eq_refl) as (H & _). exact H.
Defined.

(** [destroy] and the table. *)
Lemma destroy_effect (options : DynamoDBStoreV3Options) (sid : string)
    (callback : option Callback) (w : World) :
  let w' := snd (destroy options sid callback w) in
  sent w' = sent w ++ [delete_request options sid] ∧
  items w' = (if no_fault 1 (faults w)
              then delete (getSessionID options sid) (items w)
              else items w) ∧
  clock w' = clock w ∧
  faults w' = tail (faults w).
Proof.
  unfold destroy, try_catch, bind, invoke_if_function, invoke, ret.
  fold (delete_request options sid).
  destruct (send_cases (delete_request options sid) w)
    as [[-> ->] | [-> (e & fs & _ & ->)]]; cbn [perform delete_request fst snd];
    destruct callback as [f|]; try destruct (f [ANull]); done.
Qed.

(** X9: [destroy] without a callback is silent: it issues its one delete
    request and returns normally whether the request is answered or
    rejected, and no callback is invoked.  The item is gone when the request
    was answered. *)
Theorem destroy_without_callback (options : DynamoDBStoreV3Options)
    (sid : string) (w : World) :
  let w' := snd (destroy options sid None w) in
  fst (destroy options sid None w) = Ok tt ∧
  calls w' = calls w ∧
  sent w' = sent w ++ [delete_request options sid] ∧
  items w' = (if no_fault 1 (faults w)
              then delete (getSessionID options sid) (items w)
              else items w).
Proof.
  unfold destroy, try_catch, bind, invoke_if_function, ret.
  fold (delete_request options sid).
  destruct (send_cases (delete_request options sid) w)
    as [[-> ->] | [-> (e & fs & _ & ->)]]; done.
Qed.

(** X8: a load that follows a successful destroy of the same session id,
    at any later time, finds nothing and calls back with [(null, null)]. *)
Theorem destroy_then_get (options : DynamoDBStoreV3Options) (sid : string)
    (callback callback' : Callback) (w : World) (later : Z) :
  no_fault 2 (faults w) = true →
  let w1 := snd (destroy options sid (Some callback) w) in
  let w2 := snd (get options sid callback' (advance later w1)) in
  items w1 !! getSessionID options sid = None ∧
  calls w1 = calls w ++ guarded_calls callback [ANull] ∧
  calls w2 = calls w1 ++ guarded_calls callback' [ANull; ANull] ∧
  items w2 = items w1.
Proof.
  intros Hok w1 w2.
  destruct (destroy_deletes options sid callback w
              (no_fault_le 1 2 _ ltac:(lia) Hok)) as (Hi & _ & Hc & _ & Hf).
  fold w1 in Hi, Hc, Hf.
  assert (Hnone : items w1 !! getSessionID options sid = None)
    by (rewrite Hi; apply lookup_delete_eq).
  assert (Hok1 : no_fault 1 (faults (advance later w1)) = true)
    by (cbn [advance with_clock faults]; rewrite Hf; by apply no_fault_tail).
  split; [exact Hnone|]. split; [exact Hc|]. subst w2. split.
  - by rewrite get_not_found.
  - unfold get, try_catch, bind at 1. fold (get_request options sid).
    rewrite (send_answered _ _ Hok1). unfold get_request.
    cbn [perform fst snd advance with_clock items]. rewrite Hnone.
    unfold invoke. by destruct (callback' [ANull; ANull]).
Qed.

Lemma destroy_then_get_witness :
  calls (snd (get default_store "abc" quiet
                  (advance 1000
                     (snd (destroy default_store "abc" (Some quiet)
                                   live_world))))) =
  [[ANull]; [ANull; ANull]].
Proof.
  destruct (destroy_then_get default_store "abc" quiet quiet live_world 1000)
    as (_ & Hc1 & Hc2 & _); [reflexivity|].
  rewrite Hc2, Hc1. reflexivity.
Defined.

(** ** Loading *)

(** [get], once the read is answered. *)
Lemma get_answered (options : DynamoDBStoreV3Options) (sid : string)
    (callback : Callback) (w : World) :
  no_fault 1 (faults w) = true →
  let read := issued (get_request options sid) w in
  get options sid callback w =
    match items w !! getSessionID options sid with
    | None =>
        try_catch (invoke callback [ANull; ANull])
                  (λ e, invoke callback [AError e]) read
    | Some r =>
        match fst (isExpired (item_expires r) w) with
        | Ok true =>
            (Ok tt,
             snd (handleExpiredSession options sid (Some callback) read))
        | Ok false =>
            try_catch (invoke callback [ANull; session_arg r])
                      (λ e, invoke callback [AError e]) read
        | Throw e => invoke callback [AError e] read
        end
    end.
Proof.
  intros Hok read. unfold get, try_catch. unfold bind at 1.
  fold (get_request options sid).
  rewrite (send_answered _ w Hok). unfold get_request at 1 2.
  cbn [perform fst snd]. fold (get_request options sid). fold read.
  destruct (items w !! getSessionID options sid) as [r|]; [|reflexivity].
  unfold bind at 1.
  rewrite (isExpired_clock (item_expires r) w) by reflexivity.
  destruct (item_expires r) as [e|]; [|reflexivity].
  rewrite isExpired_eval. cbn [fst].
  destruct (bool_decide (e = 0 ∨ e ≤ clock w / 1000)); reflexivity.
Qed.

(** [get] on a record that is there and not expired. *)
Lemma get_live (options : DynamoDBStoreV3Options) (sid : string)
    (callback : Callback) (w : World) (r : Item) :
  no_fault 1 (faults w) = true →
  items w !! getSessionID options sid = Some r →
  fst (isExpired (item_expires r) w) = Ok false →
  let w' := snd (get options sid callback w) in
  calls w' = calls w ++ guarded_calls callback [ANull; session_arg r] ∧
  items w' = items w ∧
  sent w' = sent w ++ [get_request options sid] ∧
  faults w' = tail (faults w).
Proof.
  intros Hok Hit Hexp. cbv zeta.
  rewrite (get_answered options sid callback w Hok). cbv zeta. rewrite Hit.
  rewrite Hexp.
  destruct (guarded_invoke_effect callback [ANull; session_arg r]
              (issued (get_request options sid) w)) as (Hs & Hi & _ & Hf & Hc).
  by rewrite Hs, Hi, Hf, Hc.
Qed.

(** X10: when the read finds a record that is not expired, [get] calls back
    with [(null, payload)], the payload being the stored attribute as it is
    ([undefined] if the item has none); it issues no other request and
    leaves the table as it was. *)
Theorem get_found (options : DynamoDBStoreV3Options) (sid : string)
    (callback : Callback) (w : World) (r : Item) (expires : Z) :
  no_fault 1 (faults w) = true →
  items w !! getSessionID options sid = Some r →
  item_expires r = Some expires →
  expires ≠ 0 →
  clock w / 1000 < expires →
  let w' := snd (get options sid callback w) in
  calls w' = calls w ++ guarded_calls callback [ANull; session_arg r] ∧
  items w' = items w ∧
  sent w' = sent w ++ [get_request options sid].
Proof.
  intros Hok Hit He Hne Hlt.
  destruct (get_live options sid callback w r Hok Hit) as (Hc & Hi & Hs & _);
    [|done].
  rewrite He, isExpired_eval. cbn [fst]. f_equal.
  apply bool_decide_eq_false_2. lia.
Qed.

Lemma get_found_witness :
  calls (snd (get default_store "abc" quiet live_world)) =
    [[ANull; ASession cookie_session]] ∧
  items (snd (get default_store "abc" quiet live_world)) = items live_world.
Proof.
  destruct (get_found default_store "abc" quiet live_world live_item
                      1800000000) as (Hc & Hi & _);
    [reflexivity | reflexivity | reflexivity | discriminate | by vm_compute |].
  split; [exact Hc | exact Hi].
Defined.

(** The requests [get] can issue and what they can do to the table. *)
Lemma get_requests (options : DynamoDBStoreV3Options) (sid : string)
    (callback : Callback) (w : World) :
  let w' := snd (get options sid callback w) in
  (sent w' = sent w ++ [get_request options sid] ∧ items w' = items w) ∨
  (sent w' = sent w ++ [get_request options sid; delete_request options sid] ∧
   keepExpired options = false ∧
   (items w' = items w ∨
    items w' = delete (getSessionID options sid) (items w))).
Proof.
  cbv zeta. destruct (no_fault 1 (faults w)) eqn:Hok.
  - rewrite (get_answered options sid callback w Hok). cbv zeta.
    set (read := issued (get_request options sid) w).
    destruct (items w !! getSessionID options sid) as [r|].
    + destruct (fst (isExpired (item_expires r) w)) as [[|]|e].
      * unfold handleExpiredSession, invoke_if_function, invoke, detached.
        destruct (keepExpired options); [by left|]. right.
        destruct (destroy_effect options sid (Some callback) read)
          as (Hs & Hi & _). cbn [snd]. rewrite Hs, Hi.
        split; [by cbn; rewrite <- app_assoc|]. split; [done|].
        destruct (no_fault 1 (faults read)); [by right | by left].
      * left.
        destruct (guarded_invoke_effect callback [ANull; session_arg r] read)
          as (Hs & Hi & _). by rewrite Hs, Hi.
      * by left.
    + left.
      destruct (guarded_invoke_effect callback [ANull; ANull] read)
        as (Hs & Hi & _). by rewrite Hs, Hi.
  - left. destruct (faults w) as [|[e|] fs] eqn:Hf; try done.
    by rewrite (get_rejected options sid callback w e fs Hf).
Qed.

(** X11: [get] never writes.  Whatever the table, the clock, the callback
    and the outcomes of the requests, it issues its read and at most one
    more request, the delete of this session's record, and that only for a
    store that does not keep expired records; the table afterwards is the
    table before, with at most this session's record removed. *)
Theorem get_never_writes (options : DynamoDBStoreV3Options) (sid : string)
    (callback : Callback) (w : World) :
  let w' := snd (get options sid callback w) in
  (sent w' = sent w ++ [get_request options sid] ∧ items w' = items w) ∨
  (sent w' = sent w ++ [get_request options sid; delete_request options sid] ∧
   keepExpired options = false ∧
   (items w' = items w ∨
    items w' = delete (getSessionID options sid) (items w))).
Proof. apply get_requests. Qed.


(** ** The life of a session *)

(** What a successful save leaves behind, for a store with a fixed ttl. *)
Lemma set_stored (options : DynamoDBStoreV3Options) (sid : string)
    (sess : SessionData) (callback : option Callback) (w : World) (t : Z) :
  ttl options = Some t →
  accepts_updated sess = true →
  no_fault 1 (faults w) = true →
  let w' := snd (set options sid sess callback w) in
  items w' !! getSessionID options sid =
    Some {| item_sess := Some (as_stored (with_updated (clock w / 1000) sess));
            item_expires := Some ((clock w + t) / 1000) |} ∧
  clock w' = clock w ∧
  faults w' = tail (faults w) ∧
  calls w' = calls w ++ finally_calls callback ∧
  sent w' = sent w ++ [set_request options sid sess (clock w / 1000)
                                   ((clock w + t) / 1000)].
Proof.
  intros Ht Hacc Hok. cbv zeta.
  rewrite (set_eval options sid sess callback w (new_Date (clock w + t))
             (getExpiration_ttl options sess w t Ht) Hacc).
  cbn [fst snd getTime].
  destruct (finally_send_effect
              (set_request options sid sess (clock w / 1000)
                           ((clock w + t) / 1000))
              callback w) as (Hs & Hc & Hk & Hi & Hf).
  rewrite Hs, Hc, Hk, Hi, Hf, send_items, Hok. unfold set_request.
  cbn [perform snd]. by rewrite lookup_insert_eq.
Qed.

(** X12: a saved session is gone once its ttl has elapsed.  For a store
    that does not keep expired records, a load [elapsed >= ttl] milliseconds
    after a successful save (the payload took the stamp, the request was
    answered) finds the record expired and deletes it: the callback gets
    [(null)] alone, no session, and the item is no longer in the table. *)
Theorem session_expires_after_ttl (options : DynamoDBStoreV3Options)
    (sid : string) (sess : SessionData) (callback0 : option Callback)
    (callback : Callback) (w : World) (t elapsed : Z) :
  ttl options = Some t →
  keepExpired options = false →
  t ≤ elapsed →
  accepts_updated sess = true →
  no_fault 3 (faults w) = true →
  let w1 := snd (set options sid sess callback0 w) in
  let w2 := snd (get options sid callback (advance elapsed w1)) in
  items w2 !! getSessionID options sid = None ∧
  calls w2 = calls w1 ++ guarded_calls callback [ANull] ∧
  sent w2 = sent w1 ++ [get_request options sid; delete_request options sid].
Proof.
  intros Ht Hkeep Hel Hacc Hok w1 w2.
  destruct (set_stored options sid sess callback0 w t Ht Hacc
              (no_fault_le 1 3 _ ltac:(lia) Hok)) as (Hit & Hk & Hf & _).
  fold w1 in Hit, Hk, Hf.
  set (wa := advance elapsed w1).
  assert (Hoka : no_fault 2 (faults wa) = true)
    by (cbn [wa advance with_clock faults]; rewrite Hf; by apply no_fault_tail).
  assert (Hexp : fst (isExpired (Some ((clock w + t) / 1000)) wa) = Ok true).
  { rewrite isExpired_eval. cbn [fst wa advance with_clock clock]. f_equal.
    apply bool_decide_eq_true_2. right. rewrite Hk.
    apply Z.div_le_mono; lia. }
  subst w2. fold wa.
  rewrite (get_expired_delegates options sid callback wa _ Hit Hexp
             (no_fault_le 1 2 _ ltac:(lia) Hoka)).
  unfold handleExpiredSession. rewrite Hkeep. unfold detached. cbn [snd].
  set (read := issued (get_request options sid) wa).
  destruct (destroy_deletes options sid callback read) as (Hi & Hs & Hc & _).
  { apply no_fault_tail in Hoka. exact Hoka. }
  rewrite Hi, Hs, Hc. split; [apply lookup_delete_eq|]. split; [reflexivity|].
  cbn. by rewrite <- app_assoc.
Qed.

Lemma session_expires_after_ttl_witness :
  let w1 := snd (set short_store "abc" cookie_session (Some quiet) fresh_world) in
  let w2 := snd (get short_store "abc" quiet (advance 500 w1)) in
  items w2 !! "sess_abc" = None ∧ calls w2 = [[]; [ANull]].
Proof.
  destruct (session_expires_after_ttl short_store "abc" cookie_session
              (Some quiet) quiet fresh_world 500 500) as (Hi & Hc & _);
    [reflexivity | reflexivity | lia | reflexivity | reflexivity |].
  split; [exact Hi | exact Hc].
Defined.



(** X17: with [keepExpired] an expired record stays expired: every later
    load finds it again, calls back with no argument and issues nothing but
    its read, so the record is never deleted by loading. *)
Theorem kept_record_stays_expired (options : DynamoDBStoreV3Options)
    (sid : string) (callback callback' : Callback) (w : World) (r : Item)
    (later : Z) :
  keepExpired options = true →
  items w !! getSessionID options sid = Some r →
  fst (isExpired (item_expires r) w) = Ok true →
  no_fault 2 (faults w) = true →
  0 ≤ later →
  let w1 := snd (get options sid callback w) in
  let w2 := snd (get options sid callback' (advance later w1)) in
  calls w2 = calls w ++ [[]; []] ∧
  items w2 = items w ∧
  sent w2 = sent w ++ [get_request options sid; get_request options sid].
Proof.
  intros Hkeep Hit Hexp Hok Hl w1 w2.
  assert (Hw1 : w1 = with_calls (calls w ++ [[]])
                                (issued (get_request options sid) w)).
  { subst w1.
    rewrite (get_expired_delegates options sid callback w r Hit Hexp
               (no_fault_le 1 2 _ ltac:(lia) Hok)).
    unfold handleExpiredSession. by rewrite Hkeep. }
  set (wa := advance later w1) in w2.
  assert (Hita : items wa !! getSessionID options sid = Some r)
    by (subst wa; rewrite Hw1; exact Hit).
  assert (Hexpa : fst (isExpired (item_expires r) wa) = Ok true).
  { rewrite (isExpired_clock _ (advance later w))
      by (subst wa; by rewrite Hw1).
    cbn [fst]. by apply isExpired_later. }
  assert (Hoka : no_fault 1 (faults wa) = true)
    by (subst wa; rewrite Hw1; apply no_fault_tail in Hok; exact Hok).
  subst w2.
  rewrite (get_expired_delegates options sid callback' wa r Hita Hexpa Hoka).
  unfold handleExpiredSession. rewrite Hkeep.
  unfold invoke_if_function, invoke. subst wa. rewrite Hw1. cbn.
  by rewrite <- !app_assoc.
Qed.

Lemma kept_record_stays_expired_witness :
  let w1 := snd (get keeping_store "abc" quiet stale_world) in
  let w2 := snd (get keeping_store "abc" quiet (advance 60000 w1)) in
  calls w2 = [[]; []] ∧ items w2 = items stale_world.
Proof.
  destruct (kept_record_stays_expired keeping_store "abc" quiet quiet
              stale_world stale_item 60000) as (Hc & Hi & _);
    [reflexivity | reflexivity | reflexivity | reflexivity | lia |].
  split; [exact Hc | exact Hi].
Defined.

(** ** More on touch *)

Lemma bind_ok {A B} (m : M A) (k : A → M B) (w w' : World) (a : A) :
  m w = (Ok a, w') → bind m k w = k a w'.
Proof. intros H. unfold bind. by rewrite H. Qed.

(** [touch] is either skipped or issues one update. *)
Lemma touch_eval (options : DynamoDBStoreV3Options) (sid : string)
    (sess : SessionData) (callback : option Callback) (w : World) :
  ∃ d, getExpiration options sess w = (Ok d, w) ∧
    (touch options sid sess callback w =
       try_catch (invoke_if_function callback [])
                 (λ _, invoke_if_function callback []) w
     ∨
     touch options sid sess callback w =
       (Ok tt,
        snd (finally_
               (send (UpdateCommand (name (table options))
                        (hashKey (table options)) (getSessionID options sid)
                        (SetTouch (dataAttribute (table options))
                                  (getTime d / 1000) (clock w))))
               callback w))).
Proof.
  destruct (getExpiration_total options sess w) as [d Hd].
  exists d. split; [exact Hd|].
  unfold touch, try_catch.
  destruct (updated sess) as [u|]; cbv [truthy truthy_option truthy_Z].
  - destruct (u =? 0); cbn [negb].
    + right. rewrite (bind_ok (ret true) _ w w true eq_refl).
      by rewrite (bind_ok _ _ w w d Hd).
    + rewrite (bind_ok (now <- Date_now ;;
                        ret (u + touchInterval options <=? now))
                       _ w w (u + touchInterval options <=? clock w) eq_refl).
      destruct (u + touchInterval options <=? clock w).
      * right. by rewrite (bind_ok _ _ w w d Hd).
      * by left.
  - right. cbn [negb]. rewrite (bind_ok (ret true) _ w w true eq_refl).
    by rewrite (bind_ok _ _ w w d Hd).
Qed.



(** X15: [touch] reports nothing.  With a callback that returns, it returns
    normally and calls back exactly once, with no argument, for every
    payload, store and outcome of the request; it issues at most one
    request, an update of this session's record stamped with the current
    time in milliseconds, and changes nothing when it issues none. *)
Theorem touch_calls_back_once (options : DynamoDBStoreV3Options)
    (sid : string) (sess : SessionData) (callback : Callback) (w : World) :
  callback [] = Ok tt →
  let w' := snd (touch options sid sess (Some callback) w) in
  fst (touch options sid sess (Some callback) w) = Ok tt ∧
  calls w' = calls w ++ [[]] ∧
  ((sent w' = sent w ∧ items w' = items w) ∨
   ∃ e, sent w' = sent w ++
          [UpdateCommand (name (table options)) (hashKey (table options))
             (getSessionID options sid)
             (SetTouch (dataAttribute (table options)) e (clock w))]).
Proof.
  intros Hcb. cbv zeta.
  destruct (touch_eval options sid sess (Some callback) w)
    as (d & _ & [-> | ->]).
  - unfold try_catch, invoke_if_function, invoke. rewrite Hcb. cbn.
    split; [done|]. split; [done|]. by left.
  - cbn [fst snd].
    match goal with |- context [finally_ (send ?c) _ _] =>
      destruct (finally_send_effect c (Some callback) w) as (Hs & Hc & _)
    end.
    rewrite Hs, Hc. split; [done|]. split; [done|]. right. by eexists.
Qed.

Lemma touch_calls_back_once_witness :
  calls (snd (touch default_store "abc" cookie_session (Some quiet)
                    failing_world)) = [[]] ∧
  calls (snd (touch default_store "abc"
                    (with_updated 1699999990000 cookie_session) (Some quiet)
                    live_world)) = [[]].
Proof.
  split.
  - destruct (touch_calls_back_once default_store "abc" cookie_session quiet
                failing_world) as (_ & Hc & _); [reflexivity | exact Hc].
  - destruct (touch_calls_back_once default_store "abc"
                (with_updated 1699999990000 cookie_session) quiet live_world)
      as (_ & Hc & _); [reflexivity | exact Hc].
Defined.

(** ** Sessions do not interfere *)

Lemma get_frame (options : DynamoDBStoreV3Options) (sid : string)
    (callback : Callback) (w : World) (key : string) :
  key ≠ getSessionID options sid →
  items (snd (get options sid callback w)) !! key = items w !! key.
Proof.
  intros Hk.
  destruct (get_requests options sid callback w)
    as [[_ ->] | (_ & _ & [-> | ->])]; try done.
  by apply lookup_delete_ne.
Qed.

(** X16: an operation on one session id never changes the record of
    another: after [set], [touch], [destroy] or [get] on [sid], whatever the
    outcome, the item stored for any other session id is what it was. *)
Theorem other_sessions_untouched (options : DynamoDBStoreV3Options)
    (sid sid' : string) (sess : SessionData) (callback : option Callback)
    (callback' : Callback) (w : World) :
  sid ≠ sid' →
  let other := getSessionID options sid' in
  items (snd (set options sid sess callback w)) !! other = items w !! other ∧
  items (snd (touch options sid sess callback w)) !! other = items w !! other ∧
  items (snd (destroy options sid callback w)) !! other = items w !! other ∧
  items (snd (get options sid callback' w)) !! other = items w !! other.
Proof.
  intros Hne other.
  assert (Hk : getSessionID options sid ≠ other)
    by (intros H; apply Hne; exact (append_inj_l _ _ _ H)).
  split; [|split; [|split]].
  - destruct (accepts_updated sess) eqn:Hacc.
    + destruct (getExpiration_total options sess w) as [d Hd].
      rewrite (set_eval options sid sess callback w d Hd Hacc). cbn [snd].
      match goal with |- context [finally_ (send ?c) _ _] =>
        destruct (finally_send_effect c callback w) as (_ & _ & _ & -> & _);
        apply (send_frame c)
      end. cbn. congruence.
    + rewrite (set_refused options sid sess callback w Hacc).
      by destruct callback.
  - destruct (touch_eval options sid sess callback w) as (d & _ & [-> | ->]).
    + unfold try_catch, invoke_if_function, invoke, ret.
      destruct callback as [f|]; [|done]. by destruct (f []).
    + cbn [snd].
      match goal with |- context [finally_ (send ?c) _ _] =>
        destruct (finally_send_effect c callback w) as (_ & _ & _ & -> & _);
        apply (send_frame c)
      end. cbn. congruence.
  - destruct (destroy_effect options sid callback w) as (_ & -> & _).
    destruct (no_fault 1 (faults w)); [|done]. by apply lookup_delete_ne.
  - apply get_frame. congruence.
Qed.

Lemma other_sessions_untouched_witness :
  items (snd (destroy default_store "xyz" (Some quiet) live_world))
    !! "sess_abc" = Some live_item ∧
  items (snd (set default_store "xyz" empty_session (Some quiet) live_world))
    !! "sess_abc" = Some live_item.
Proof.
  destruct (other_sessions_untouched default_store "xyz" "abc" empty_session
              (Some quiet) quiet live_world) as (Hset & _ & Hdestroy & _);
    [discriminate|].
  split.
  - transitivity (items live_world !! getSessionID default_store "abc");
      [exact Hdestroy | reflexivity].
  - transitivity (items live_world !! getSessionID default_store "abc");
      [exact Hset | reflexivity].
Defined.
